(** * The OAuth callback handler of use-mcp: [onMcpAuthorization]

    A shallow embedding of [src/auth/callback.ts] and [src/auth/types.ts].
    The handler runs in the callback window: it reads the redirect's query
    string, looks the pending authorization up in [localStorage], lets the
    SDK exchange the code, writes an [AuthResult] for the polling opener,
    tries a [postMessage], and cleans up.

    Conventions of the model:
    - JavaScript strings are [string]s (sequences of bytes holding UTF-8);
    - numbers are [Z]: every number the handler touches is a millisecond
      timestamp ([Date.now()] or a stored [expiry]), an integer far below
      2^53, where double arithmetic is exact;
    - [localStorage] is a [gmap string string];
    - the handler is a computation in a state-and-exception monad whose
      state holds the storage, the number of clock readings taken so far,
      the two mutable locals of the function and the list of observable
      effects, oldest first;
    - the platform pieces the source only calls ([JSON.parse] at the type of
      the cast, the SDK's [auth], the provider's [getKey]) are parameters;
    - [localStorage] operations, the provider's constructor and [getKey]
      return normally; console output is left out. *)

From Stdlib Require Import ZArith String Ascii List DecimalString Lia.
From stdpp Require Import base option strings gmap.

Local Open Scope string_scope.
Local Open Scope Z_scope.

(** ** Strings and truthiness *)

Module Js.

(** The double quote, which a template literal may contain. *)
Definition dquote : string := String (ascii_of_nat 34) EmptyString.

(** [if (s)] on a string: the empty string is falsy. *)
Definition truthy_string (s : string) : bool :=
  match s with
  | EmptyString => false
  | String _ _ => true
  end.

(** [if (v)] on [string | null] (and on [string | undefined]). *)
Definition truthy (v : option string) : bool :=
  match v with
  | Some s => truthy_string s
  | None => false
  end.

(** [v || d] on [string | null] with a string default. *)
Definition or_else (v : option string) (d : string) : string :=
  match v with
  | Some s => if truthy_string s then s else d
  | None => d
  end.

(** [`${v}`] on [string | null]. *)
Definition template (v : option string) : string :=
  match v with
  | Some s => s
  | None => "null"
  end.

(** [`${n}`] and [JSON.stringify(n)] on an integer below 10^21. *)
Definition string_of_Z (n : Z) : string :=
  NilZero.string_of_int (Z.to_int n).

(** [!n] on a number: zero is falsy (there is no NaN among integers). *)
Definition truthy_number (n : Z) : bool := negb (n =? 0).

End Js.

(** ** [URLSearchParams]

    The constructor applied to a string and [get], after the URL standard's
    [application/x-www-form-urlencoded] parser: an optional leading [?] is
    dropped, the rest is split at [&], empty pieces are skipped, each piece
    is split at its first [=], [+] becomes a space, and percent escapes are
    decoded.  The final UTF-8 decoding is the identity on the bytes. *)

Module URLSearchParams.

Definition hex_digit (c : ascii) : option N :=
  let n := N_of_ascii c in
  if ((48 <=? n) && (n <=? 57))%N then Some (n - 48)%N
  else if ((65 <=? n) && (n <=? 70))%N then Some (n - 55)%N
  else if ((97 <=? n) && (n <=? 102))%N then Some (n - 87)%N
  else None.

Fixpoint percent_decode (s : string) : string :=
  match s with
  | EmptyString => EmptyString
  | String c rest =>
      if Ascii.eqb c "%" then
        match rest with
        | String h (String l rest') =>
            match hex_digit h, hex_digit l with
            | Some a, Some b =>
                String (ascii_of_N (16 * a + b)) (percent_decode rest')
            | _, _ => String c (percent_decode rest)
            end
        | _ => String c (percent_decode rest)
        end
      else String c (percent_decode rest)
  end.

Fixpoint plus_to_space (s : string) : string :=
  match s with
  | EmptyString => EmptyString
  | String c rest =>
      String (if Ascii.eqb c "+" then " "%char else c) (plus_to_space rest)
  end.

(** Split at every occurrence of [sep]; [acc] is the current piece. *)
Fixpoint split_on (sep : ascii) (acc s : string) : list string :=
  match s with
  | EmptyString => [acc]
  | String c rest =>
      if Ascii.eqb c sep then acc :: split_on sep EmptyString rest
      else split_on sep (acc +:+ String c EmptyString) rest
  end.

(** Split at the first [=]: the name, and the value (empty without [=]). *)
Fixpoint split_first_eq (acc s : string) : string * string :=
  match s with
  | EmptyString => (acc, EmptyString)
  | String c rest =>
      if Ascii.eqb c "=" then (acc, rest)
      else split_first_eq (acc +:+ String c EmptyString) rest
  end.

Definition decode (s : string) : string := percent_decode (plus_to_space s).

Definition parse_pair (piece : string) : string * string :=
  let '(name, value) := split_first_eq EmptyString piece in
  (decode name, decode value).

Definition strip_question (s : string) : string :=
  match s with
  | String c rest => if Ascii.eqb c "?" then rest else s
  | EmptyString => s
  end.

(** [new URLSearchParams(search)] *)
Definition make (search : string) : list (string * string) :=
  map parse_pair
    (filter (fun p => Js.truthy_string p = true)
       (split_on "&" EmptyString (strip_question search))).

(** [params.get(name)]: the first value under [name], or [null]. *)
Fixpoint get (params : list (string * string)) (name : string)
  : option string :=
  match params with
  | [] => None
  | (n, v) :: rest => if String.eqb n name then Some v else get rest name
  end.

End URLSearchParams.

(** ** The records of [types.ts] *)

Module ProviderOptions.
(** [StoredState.providerOptions]: what the callback page needs to build
    the provider again. *)
Record t := mk {
  serverUrl : string;
  storageKeyPrefix : string;
  clientName : string;
  clientUri : string;
  callbackUrl : string
}.
End ProviderOptions.

Module StoredState.
(** [interface StoredState].  The cast in the handler is unchecked and the
    handler itself tests [expiry], [authSessionId] and [providerOptions]
    for absence, so these fields are optional here; [metadata] is an SDK
    type the handler never reads and is left out. *)
Record t := mk {
  expiry : option Z;
  serverUrlHash : option string;
  authSessionId : option string;
  providerOptions : option ProviderOptions.t
}.
End StoredState.

Module AuthResult.
(** [interface AuthResult]: what the polling side reads. *)
Record t := mk {
  success : bool;
  error : option string;
  timestamp : Z;
  expiry : Z
}.

Definition hex4 (n : N) : string :=
  let d (k : N) : ascii :=
    ascii_of_N (if (k <? 10)%N then 48 + k else 87 + k)%N in
  String "0" (String "0" (String (d (n / 16)%N) (String (d (n mod 16)%N)
    EmptyString))).

(** [JSON.stringify] of a string, without the surrounding quotes. *)
Fixpoint escape (s : string) : string :=
  match s with
  | EmptyString => EmptyString
  | String c rest =>
      let n := N_of_ascii c in
      (if (n =? 34)%N then "\" +:+ Js.dquote
       else if (n =? 92)%N then "\\"
       else if (n =? 8)%N then "\b"
       else if (n =? 12)%N then "\f"
       else if (n =? 10)%N then "\n"
       else if (n =? 13)%N then "\r"
       else if (n =? 9)%N then "\t"
       else if (n <? 32)%N then "\u" +:+ hex4 n
       else String c EmptyString) +:+ escape rest
  end.

Definition quote (s : string) : string :=
  Js.dquote +:+ escape s +:+ Js.dquote.

Definition field (name value : string) : string :=
  Js.dquote +:+ name +:+ Js.dquote +:+ ":" +:+ value.

(** [JSON.stringify(authResultData)]: the properties in the order of the
    object literal; an absent [error] is not written. *)
Definition JSON_stringify (r : t) : string :=
  "{" +:+ field "success" (if success r then "true" else "false")
  +:+ match error r with
      | Some e => "," +:+ field "error" (quote e)
      | None => EmptyString
      end
  +:+ "," +:+ field "timestamp" (Js.string_of_Z (timestamp r))
  +:+ "," +:+ field "expiry" (Js.string_of_Z (expiry r))
  +:+ "}".
End AuthResult.

(** ** The window, the effects and the monad *)

(** What a [throw] carries: an [Error] (or subclass) instance, of which the
    handler reads [message], or any other value, of which it takes
    [String(err)]. *)
Inductive Thrown :=
  | ErrorObject (name message : string)
  | OtherValue (text : string).

(** [err instanceof Error ? err.message : String(err)] *)
Definition message_of (err : Thrown) : string :=
  match err with
  | ErrorObject _ m => m
  | OtherValue t => t
  end.

(** [new Error(msg)] *)
Definition new_Error (msg : string) : Thrown := ErrorObject "Error" msg.

(** [window.opener]: whether it reports [closed], and the exception its
    [postMessage] raises, if it raises one. *)
Record Opener := mkOpener {
  closed : bool;
  postMessageFault : option Thrown
}.

(** The callback window as the handler finds it.  [clock k] is what the
    [k]-th call of [Date.now()] returns (counting from 0); [bodyFault] is the
    exception the assignment to [document.body.innerHTML] raises, if any. *)
Record Window := mkWindow {
  search : string;
  clock : nat -> Z;
  opener : option Opener;
  bodyFault : option Thrown
}.

(** [new BrowserOAuthClientProvider(serverUrl, providerOptions)], with
    [providerOptions] the rest of the stored options. *)
Record BrowserOAuthClientProvider := mkProvider {
  provServerUrl : string;
  provStorageKeyPrefix : string;
  provClientName : string;
  provClientUri : string;
  provCallbackUrl : string
}.

(** The constructor keeps the server URL and the options it is given. *)
Definition new_BrowserOAuthClientProvider (serverUrl : string)
    (po : ProviderOptions.t) : BrowserOAuthClientProvider :=
  mkProvider serverUrl (ProviderOptions.storageKeyPrefix po)
    (ProviderOptions.clientName po) (ProviderOptions.clientUri po)
    (ProviderOptions.callbackUrl po).

(** The effects of the handler that another context can observe.  Console
    output is not modelled; [ShowError] stands for the assignment of the
    error page, whose markup (it interpolates the engine's stack text) is
    abstracted to the message it shows. *)
Inductive Event :=
  | SetItem (key value : string)
  | RemoveItem (key : string)
  | Exchange (serverUrl authorizationCode : string)
  | PostMessage (success : bool) (error : option string)
  | ShowError (message : string)
  | CloseAfter (ms : Z).

(** How the function ended when it returned: the end of the [try] block or
    the end of the [catch] block (a ghost value: the source returns
    [undefined] in both cases). *)
Inductive Terminal :=
  | CompletedSuccess
  | CompletedFailure (reason : string).

Record State := mkState {
  localStorage : gmap string string;
  clockReads : nat;
  provider : option BrowserOAuthClientProvider;   (* [let provider = null] *)
  storedStateData : option StoredState.t;   (* [let storedStateData = null] *)
  effects : list Event
}.

(** A computation either returns a value or throws, and leaves a state. *)
Definition M (A : Type) : Type := State -> (Thrown + A) * State.

Definition ret {A} (a : A) : M A := fun s => (inr a, s).

Definition throw {A} (e : Thrown) : M A := fun s => (inl e, s).

Definition bind {A B} (m : M A) (k : A -> M B) : M B :=
  fun s =>
    match m s with
    | (inr a, s') => k a s'
    | (inl e, s') => (inl e, s')
    end.

Definition try_catch {A} (body : M A) (handler : Thrown -> M A) : M A :=
  fun s =>
    match body s with
    | (inr a, s') => (inr a, s')
    | (inl e, s') => handler e s'
    end.

Declare Scope js_scope.
Delimit Scope js_scope with js.
Notation "x <~ m ;; k" := (bind m (fun x => k))
  (at level 100, m at next level, right associativity) : js_scope.
Notation "m ;;; k" := (bind m (fun _ => k))
  (at level 100, right associativity) : js_scope.

Definition when (b : bool) (m : M unit) : M unit :=
  if b then m else ret tt.

Definition emit (e : Event) : M unit :=
  fun s => (inr tt, mkState (localStorage s) (clockReads s) (provider s)
                      (storedStateData s) (effects s ++ [e])).

Definition getItem (key : string) : M (option string) :=
  fun s => (inr (localStorage s !! key), s).

Definition setItem (key value : string) : M unit :=
  fun s => (inr tt, mkState (<[key := value]> (localStorage s)) (clockReads s)
                      (provider s) (storedStateData s)
                      (effects s ++ [SetItem key value])).

Definition removeItem (key : string) : M unit :=
  fun s => (inr tt, mkState (delete key (localStorage s)) (clockReads s)
                      (provider s) (storedStateData s)
                      (effects s ++ [RemoveItem key])).

Definition set_provider (p : BrowserOAuthClientProvider) : M unit :=
  fun s => (inr tt, mkState (localStorage s) (clockReads s) (Some p)
                      (storedStateData s) (effects s)).

Definition set_storedStateData (d : option StoredState.t) : M unit :=
  fun s => (inr tt, mkState (localStorage s) (clockReads s) (provider s) d
                      (effects s)).

Definition get_provider : M (option BrowserOAuthClientProvider) :=
  fun s => (inr (provider s), s).

Definition get_storedStateData : M (option StoredState.t) :=
  fun s => (inr (storedStateData s), s).

(** The state in which the function starts. *)
Definition initial (storage : gmap string string) : State :=
  mkState storage 0 None None [].

(** ** The handler *)

Section Handler.

(** [JSON.parse(text) as StoredState]: [None] when it throws a
    [SyntaxError], [Some None] when the text denotes [null], and the record
    otherwise (a document that is no object has no field set). *)
Variable JSON_parse : string -> option (option StoredState.t).

(** The SDK's [auth(provider, {serverUrl, authorizationCode})], awaited.
    It resolves to a status string or rejects, and while it runs the
    storage may change (the provider saves tokens, other contexts write):
    it maps the storage before the call to the storage after it. *)
Variable auth :
  BrowserOAuthClientProvider -> string -> string -> gmap string string ->
  (Thrown + string) * gmap string string.

(** [provider.getKey(suffix)] of [browser-provider.ts]. *)
Variable getKey : BrowserOAuthClientProvider -> string -> string.

Variable w : Window.

Local Open Scope js_scope.

(** [Date.now()] *)
Definition Date_now : M Z :=
  fun s => (inr (clock w (clockReads s)),
            mkState (localStorage s) (S (clockReads s)) (provider s)
              (storedStateData s) (effects s)).

(** [await auth(provider, { serverUrl, authorizationCode: code })] *)
Definition await_auth (p : BrowserOAuthClientProvider)
    (serverUrl code : string) : M string :=
  fun s =>
    let '(r, storage') := auth p serverUrl code (localStorage s) in
    (r, mkState storage' (clockReads s) (provider s) (storedStateData s)
          (effects s ++ [Exchange serverUrl code])).

(** [window.opener.postMessage({type: 'mcp_auth_callback', success,
    error}, window.location.origin)] *)
Definition postMessage (o : Opener) (success : bool) (error : option string)
  : M unit :=
  match postMessageFault o with
  | Some e => throw e
  | None => emit (PostMessage success error)
  end.

(** The [postMessage] fallback, lines 90-97 and 131-138. *)
Definition notify_opener (success : bool) (error : option string) : M unit :=
  match opener w with
  | Some o =>
      when (negb (closed o))
        (try_catch (postMessage o success error) (fun _ => ret tt))
  | None => ret tt
  end.

(** [document.body.innerHTML = ...] inside its own [try], lines 141-156. *)
Definition display_error (errorMessage : string) : M unit :=
  try_catch
    (match bodyFault w with
     | Some e => throw e
     | None => emit (ShowError errorMessage)
     end)
    (fun _ => ret tt).

(** A property read on [storedStateData], which throws on [null]. *)
Definition read_storedStateData (property : string) : M StoredState.t :=
  d <~ get_storedStateData ;;
  match d with
  | Some st => ret st
  | None =>
      throw (ErrorObject "TypeError"
               ("Cannot read properties of null (reading '" +:+ property
                +:+ "')"))
  end.

(** [`${storedStateData.providerOptions.storageKeyPrefix}:auth_result_${
    storedStateData.authSessionId}`], which throws when [providerOptions]
    is [undefined]. *)
Definition authResultKey (st : StoredState.t) : M string :=
  match StoredState.providerOptions st with
  | Some po =>
      ret (ProviderOptions.storageKeyPrefix po +:+ ":auth_result_"
           +:+ Js.template (StoredState.authSessionId st))
  | None =>
      throw (ErrorObject "TypeError"
               "Cannot read properties of undefined (reading 'storageKeyPrefix')")
  end.

(** Lines 77-84 and 117-125: build the key, read the clock twice, write. *)
Definition write_result (st : StoredState.t) (success : bool)
    (error : option string) : M unit :=
  key <~ authResultKey st ;;
  timestamp <~ Date_now ;;
  now <~ Date_now ;;
  setItem key
    (AuthResult.JSON_stringify
       (AuthResult.mk success error timestamp (now + 1000 * 60 * 5))).

Definition queryParams : list (string * string) :=
  URLSearchParams.make (search w).
Definition code : option string := URLSearchParams.get queryParams "code".
Definition state : option string := URLSearchParams.get queryParams "state".
Definition error : option string := URLSearchParams.get queryParams "error".
Definition errorDescription : option string :=
  URLSearchParams.get queryParams "error_description".

(** [state ? `mcp:auth:state_${state}` : null] *)
Definition stateKey : option string :=
  if Js.truthy state then Some ("mcp:auth:state_" +:+ Js.template state)
  else None.

(** Lines 25-110, the [try] block. *)
Definition try_block : M Terminal :=
  when (Js.truthy error)
    (throw (new_Error ("OAuth error: " +:+ Js.template error +:+ " - "
                       +:+ Js.or_else errorDescription
                             "No description provided."))) ;;;
  when (negb (Js.truthy code))
    (throw (new_Error
              "Authorization code not found in callback query parameters.")) ;;;
  match stateKey with
  | None =>
      throw (new_Error
        "State parameter not found or invalid in callback query parameters.")
  | Some stateKey =>
      storedStateJSON <~ getItem stateKey ;;
      when (negb (Js.truthy storedStateJSON))
        (throw (new_Error
                  ("Invalid or expired state parameter " +:+ Js.dquote
                   +:+ Js.template state +:+ Js.dquote
                   +:+ ". No matching state found in storage."))) ;;;
      try_catch
        (match JSON_parse (Js.template storedStateJSON) with
         | Some d => set_storedStateData d
         | None => throw (ErrorObject "SyntaxError" "Unexpected token")
         end)
        (fun _ => throw (new_Error "Failed to parse stored OAuth state.")) ;;;
      st <~ read_storedStateData "expiry" ;;
      expired <~ match StoredState.expiry st with
                 | Some expiry =>
                     if Js.truthy_number expiry
                     then now <~ Date_now ;; ret (expiry <? now)
                     else ret true
                 | None => ret true
                 end ;;
      when expired
        (removeItem stateKey ;;;
         throw (new_Error
           "OAuth state has expired. Please try initiating authentication again.")) ;;;
      match StoredState.providerOptions st with
      | None =>
          throw (new_Error
                   "Stored state is missing required provider options.")
      | Some po =>
          let serverUrl := ProviderOptions.serverUrl po in
          let p := new_BrowserOAuthClientProvider serverUrl po in
          set_provider p ;;;
          authResult <~ await_auth p serverUrl (Js.template code) ;;
          if String.eqb authResult "AUTHORIZED" then
            (if Js.truthy (StoredState.authSessionId st)
             then write_result st true None
             else ret tt) ;;;
            notify_opener true None ;;;
            emit (CloseAfter 100) ;;;
            removeItem stateKey ;;;
            ret CompletedSuccess
          else
            throw (new_Error
                     ("Unexpected result from authentication library: "
                      +:+ authResult))
      end
  end.

(** Lines 115-128: the error result for the polling side, written only if
    the stored state was loaded and names a session. *)
Definition write_error_result (errorMessage : string) : M unit :=
  d <~ get_storedStateData ;;
  match d with
  | Some st =>
      if Js.truthy (StoredState.authSessionId st)
      then write_result st false (Some errorMessage)
      else ret tt
  | None => ret tt
  end.

(** Lines 157-166: the state entry, then the provider's verifier and last
    authorization URL if the provider was built. *)
Definition clean_up : M unit :=
  match stateKey with
  | Some stateKey => removeItem stateKey
  | None => ret tt
  end ;;;
  p <~ get_provider ;;
  match p with
  | Some p =>
      removeItem (getKey p "code_verifier") ;;;
      removeItem (getKey p "last_auth_url")
  | None => ret tt
  end.

(** Lines 111-167, the [catch] block. *)
Definition catch_block (err : Thrown) : M Terminal :=
  let errorMessage := message_of err in
  write_error_result errorMessage ;;;
  notify_opener false (Some errorMessage) ;;;
  display_error errorMessage ;;;
  clean_up ;;;
  ret (CompletedFailure errorMessage).

(** [export async function onMcpAuthorization()] *)
Definition onMcpAuthorization : M Terminal :=
  try_catch try_block catch_block.

(** One invocation on a given storage: how it ended ([inl]: the returned
    promise rejects with that value) and the state it left. *)
Definition run (storage : gmap string string) : (Thrown + Terminal) * State :=
  onMcpAuthorization (initial storage).

End Handler.

(** ** A reference platform for the examples

    The theorems below hold for every [JSON_parse], [auth] and [getKey].
    The closed examples need concrete ones: a JSON reader for the fragment the
    stored records live in, two exchanges, and a key scheme. *)

Module JSON.

#[local] Unset Elimination Schemes.

Inductive value :=
  | Null
  | Bool (b : bool)
  | Num (n : Z)
  | Str (s : string)
  | Arr (items : list value)
  | Obj (members : list (string * value)).

Definition is_ws (c : ascii) : bool :=
  let n := N_of_ascii c in
  ((n =? 32) || (n =? 9) || (n =? 10) || (n =? 13))%N.

Definition is_digit (c : ascii) : bool :=
  let n := N_of_ascii c in ((48 <=? n) && (n <=? 57))%N.

Fixpoint skip_ws (s : string) : string :=
  match s with
  | String c rest => if is_ws c then skip_ws rest else s
  | EmptyString => s
  end.

(** The character after a backslash; [\u] escapes are outside the
    fragment. *)
Definition unescape (c : ascii) : option ascii :=
  let n := N_of_ascii c in
  if ((n =? 34) || (n =? 92) || (n =? 47))%N then Some c
  else if (n =? 98)%N then Some (ascii_of_N 8)
  else if (n =? 102)%N then Some (ascii_of_N 12)
  else if (n =? 110)%N then Some (ascii_of_N 10)
  else if (n =? 114)%N then Some (ascii_of_N 13)
  else if (n =? 116)%N then Some (ascii_of_N 9)
  else None.

(** The characters of a string literal after its opening quote, and the
    text after its closing quote. *)
Fixpoint parse_chars (s : string) : option (string * string) :=
  match s with
  | EmptyString => None
  | String c rest =>
      let n := N_of_ascii c in
      if (n =? 34)%N then Some (EmptyString, rest)
      else if (n =? 92)%N then
        match rest with
        | String e rest' =>
            c' ← unescape e;
            '(body, after) ← parse_chars rest';
            Some (String c' body, after)
        | EmptyString => None
        end
      else if (n <? 32)%N then None
      else '(body, after) ← parse_chars rest; Some (String c body, after)
  end.

Fixpoint parse_digits (acc : Z) (s : string) : Z * string :=
  match s with
  | String c rest =>
      if is_digit c
      then parse_digits (10 * acc + Z.of_N (N_of_ascii c - 48)) rest
      else (acc, s)
  | EmptyString => (acc, s)
  end.

Definition starts_with (p : ascii -> bool) (s : string) : bool :=
  match s with
  | String c _ => p c
  | EmptyString => false
  end.

(** An integer literal; a fraction or an exponent is outside the
    fragment. *)
Definition parse_number (s : string) : option (Z * string) :=
  let '(sign, body) :=
    match s with
    | String c rest => if Ascii.eqb c "-" then (-1, rest) else (1, s)
    | EmptyString => (1, s)
    end in
  match body with
  | String c rest =>
      if negb (is_digit c) then None
      else
        let '(n, after) :=
          if Ascii.eqb c "0" then (0, rest) else parse_digits 0 body in
        if starts_with (fun d => is_digit d || Ascii.eqb d "."
                                 || Ascii.eqb d "e" || Ascii.eqb d "E") after
        then None
        else Some (sign * n, after)
  | EmptyString => None
  end.

Fixpoint strip_prefix (p s : string) : option string :=
  match p, s with
  | EmptyString, _ => Some s
  | String a p', String b s' =>
      if Ascii.eqb a b then strip_prefix p' s' else None
  | String _ _, EmptyString => None
  end.

Definition expect (c : ascii) (s : string) : option string :=
  match skip_ws s with
  | String d rest => if Ascii.eqb c d then Some rest else None
  | EmptyString => None
  end.

Fixpoint parse_value (fuel : nat) (s : string) : option (value * string) :=
  match fuel with
  | O => None
  | S fuel =>
      match skip_ws s with
      | EmptyString => None
      | String c rest as t =>
          if Ascii.eqb c "{" then
            match expect "}" rest with
            | Some after => Some (Obj [], after)
            | None =>
                '(ms, after) ← parse_members fuel rest; Some (Obj ms, after)
            end
          else if Ascii.eqb c "[" then
            match expect "]" rest with
            | Some after => Some (Arr [], after)
            | None =>
                '(vs, after) ← parse_elements fuel rest; Some (Arr vs, after)
            end
          else if (N_of_ascii c =? 34)%N then
            '(str, after) ← parse_chars rest; Some (Str str, after)
          else if Ascii.eqb c "t" then
            after ← strip_prefix "true" t; Some (Bool true, after)
          else if Ascii.eqb c "f" then
            after ← strip_prefix "false" t; Some (Bool false, after)
          else if Ascii.eqb c "n" then
            after ← strip_prefix "null" t; Some (Null, after)
          else '(n, after) ← parse_number t; Some (Num n, after)
      end
  end
with parse_members (fuel : nat) (s : string)
  : option (list (string * value) * string) :=
  match fuel with
  | O => None
  | S fuel =>
      s1 ← expect (ascii_of_N 34) s;
      '(k, s2) ← parse_chars s1;
      s3 ← expect ":" s2;
      '(v, s4) ← parse_value fuel s3;
      match expect "," s4 with
      | Some s5 =>
          '(ms, after) ← parse_members fuel s5; Some ((k, v) :: ms, after)
      | None => after ← expect "}" s4; Some ([(k, v)], after)
      end
  end
with parse_elements (fuel : nat) (s : string)
  : option (list value * string) :=
  match fuel with
  | O => None
  | S fuel =>
      '(v, s1) ← parse_value fuel s;
      match expect "," s1 with
      | Some s2 =>
          '(vs, after) ← parse_elements fuel s2; Some (v :: vs, after)
      | None => after ← expect "]" s1; Some ([v], after)
      end
  end.

(** The whole text is one value. *)
Definition parse (text : string) : option value :=
  '(v, after) ← parse_value (S (String.length text)) text;
  match skip_ws after with
  | EmptyString => Some v
  | String _ _ => None
  end.

(** [obj[k]]: of members with the same name, the last one counts. *)
Fixpoint member (k : string) (ms : list (string * value)) : option value :=
  match ms with
  | [] => None
  | (k', v) :: rest =>
      match member k rest with
      | Some v' => Some v'
      | None => if String.eqb k' k then Some v else None
      end
  end.

(** An optional field read at its declared type: absent (or [null]),
    a value of the type, or a value of another type, which is outside the
    typed model. *)
Definition optional {A} (read : value -> option A) (v : option value)
  : option (option A) :=
  match v with
  | None | Some Null => Some None
  | Some x => a ← read x; Some (Some a)
  end.

Definition as_string (v : value) : option string :=
  match v with Str s => Some s | _ => None end.

Definition as_number (v : value) : option Z :=
  match v with Num n => Some n | _ => None end.

Definition as_providerOptions (v : value) : option ProviderOptions.t :=
  match v with
  | Obj ms =>
      serverUrl ← member "serverUrl" ms ≫= as_string;
      storageKeyPrefix ← member "storageKeyPrefix" ms ≫= as_string;
      clientName ← member "clientName" ms ≫= as_string;
      clientUri ← member "clientUri" ms ≫= as_string;
      callbackUrl ← member "callbackUrl" ms ≫= as_string;
      Some (ProviderOptions.mk serverUrl storageKeyPrefix clientName
              clientUri callbackUrl)
  | _ => None
  end.

Definition as_StoredState (v : value) : option (option StoredState.t) :=
  match v with
  | Null => Some None
  | Obj ms =>
      expiry ← optional as_number (member "expiry" ms);
      serverUrlHash ← optional as_string (member "serverUrlHash" ms);
      authSessionId ← optional as_string (member "authSessionId" ms);
      providerOptions ←
        optional as_providerOptions (member "providerOptions" ms);
      Some (Some (StoredState.mk expiry serverUrlHash authSessionId
                    providerOptions))
  | _ => Some (Some (StoredState.mk None None None None))
  end.

End JSON.

Module Reference.

(** [JSON.parse(text) as StoredState] on the fragment: integer numbers,
    strings without [\u] escapes, fields of their declared types.  Outside
    the fragment it answers [None], where the real [JSON.parse] may not
    throw; no example leaves the fragment. *)
Definition JSON_parse (text : string) : option (option StoredState.t) :=
  JSON.parse text ≫= JSON.as_StoredState.

(** A key scheme in the manner of the provider: prefix, server, suffix. *)
Definition getKey (p : BrowserOAuthClientProvider) (suffix : string)
  : string :=
  provStorageKeyPrefix p +:+ ":" +:+ provServerUrl p +:+ "_" +:+ suffix.

(** An exchange that succeeds: it saves tokens and drops the verifier. *)
Definition auth_ok (p : BrowserOAuthClientProvider)
    (serverUrl code : string) (storage : gmap string string)
  : (Thrown + string) * gmap string string :=
  (inr "AUTHORIZED",
   <[getKey p "tokens" := "{}"]> (delete (getKey p "code_verifier") storage)).

(** An exchange the authorization server refuses. *)
Definition auth_rejects (p : BrowserOAuthClientProvider)
    (serverUrl code : string) (storage : gmap string string)
  : (Thrown + string) * gmap string string :=
  (inl (new_Error "invalid_grant"), storage).

(** An exchange that answers with a redirect instead of tokens. *)
Definition auth_redirects (p : BrowserOAuthClientProvider)
    (serverUrl code : string) (storage : gmap string string)
  : (Thrown + string) * gmap string string :=
  (inr "REDIRECT", storage).

(** A clock that stands at [t]. *)
Definition still (t : Z) : nat -> Z := fun _ => t.

(** A clock that reads 1 700 000 000 000 when the expiry is checked, is
    400 ms further after the exchange, and ticks once more between the two
    readings that build the result. *)
Definition drifting : nat -> Z :=
  fun k =>
    match k with
    | O => 1700000000000
    | S O => 1700000000400
    | _ => 1700000000401
    end.

Definition run_ok := run JSON_parse auth_ok getKey.
Definition run_rejects := run JSON_parse auth_rejects getKey.
Definition run_redirects := run JSON_parse auth_redirects getKey.

(** JSON text written with apostrophes for the double quotes. *)
Fixpoint json (s : string) : string :=
  match s with
  | EmptyString => EmptyString
  | String c rest =>
      String (if Ascii.eqb c "'" then ascii_of_nat 34 else c) (json rest)
  end.

(** The pending entry of the scenarios, under state [s1]: session [sess1],
    a full set of provider options, expiry 1 700 000 300 000. *)
Definition pending_s1 : string :=
  json ("{'expiry':1700000300000,'serverUrlHash':'9f2c',"
        +:+ "'authSessionId':'sess1','providerOptions':{"
        +:+ "'serverUrl':'https://mcp.example/sse',"
        +:+ "'storageKeyPrefix':'mcp:auth','clientName':'demo',"
        +:+ "'clientUri':'https://app.example',"
        +:+ "'callbackUrl':'https://app.example/oauth/callback'}}").

(** The same entry without a session id. *)
Definition pending_no_session : string :=
  json ("{'expiry':1700000300000,'serverUrlHash':'9f2c',"
        +:+ "'providerOptions':{"
        +:+ "'serverUrl':'https://mcp.example/sse',"
        +:+ "'storageKeyPrefix':'mcp:auth','clientName':'demo',"
        +:+ "'clientUri':'https://app.example',"
        +:+ "'callbackUrl':'https://app.example/oauth/callback'}}").

(** An entry with a session id and no provider options. *)
Definition pending_no_options : string :=
  json "{'expiry':1700000300000,'authSessionId':'sess1'}".

(** What [pending_s1] denotes. *)
Definition options_s1 : ProviderOptions.t :=
  ProviderOptions.mk "https://mcp.example/sse" "mcp:auth" "demo"
    "https://app.example" "https://app.example/oauth/callback".

Definition state_s1 : StoredState.t :=
  StoredState.mk (Some 1700000300000) (Some "9f2c") (Some "sess1")
    (Some options_s1).

Definition provider_s1 : BrowserOAuthClientProvider :=
  new_BrowserOAuthClientProvider "https://mcp.example/sse" options_s1.

Definition storage_s1 (entry : string) : gmap string string :=
  {[ "mcp:auth:state_s1" := entry ]}.

(** The callback window with no opener, as after a severed popup. *)
Definition window (search : string) (clock : nat -> Z) : Window :=
  mkWindow search clock None None.

(** The callback window of a popup whose opener is alive. *)
Definition popup (search : string) (clock : nat -> Z) : Window :=
  mkWindow search clock (Some (mkOpener false None)) None.

End Reference.

(** ** What a run made observable *)

(** The writes to [localStorage], in order: the results published. *)
Fixpoint published (es : list Event) : list (string * string) :=
  match es with
  | [] => []
  | SetItem k v :: rest => (k, v) :: published rest
  | _ :: rest => published rest
  end.

(** The token exchanges attempted, in order. *)
Fixpoint exchanges (es : list Event) : list (string * string) :=
  match es with
  | [] => []
  | Exchange url c :: rest => (url, c) :: exchanges rest
  | _ :: rest => exchanges rest
  end.

(** The effects other than messages to the opener. *)
Fixpoint without_messages (es : list Event) : list Event :=
  match es with
  | [] => []
  | PostMessage _ _ :: rest => without_messages rest
  | e :: rest => e :: without_messages rest
  end.

(** The failure reasons of the handler. *)
Module Reason.
Definition authorization_denied (error description : option string)
  : string :=
  "OAuth error: " +:+ Js.template error +:+ " - "
  +:+ Js.or_else description "No description provided.".
Definition missing_code : string :=
  "Authorization code not found in callback query parameters.".
Definition missing_state : string :=
  "State parameter not found or invalid in callback query parameters.".
Definition unknown_state (state : option string) : string :=
  "Invalid or expired state parameter " +:+ Js.dquote +:+ Js.template state
  +:+ Js.dquote +:+ ". No matching state found in storage.".
Definition unparseable_state : string :=
  "Failed to parse stored OAuth state.".
Definition expired_state : string :=
  "OAuth state has expired. Please try initiating authentication again.".
Definition missing_options : string :=
  "Stored state is missing required provider options.".
Definition unexpected_status (status : string) : string :=
  "Unexpected result from authentication library: " +:+ status.
End Reason.

(** What the handler sends to an opener, if one is reachable. *)
Definition messages (w : Window) (success : bool) (error : option string)
  : list Event :=
  match opener w with
  | Some o =>
      if closed o then []
      else match postMessageFault o with
           | Some _ => []
           | None => [PostMessage success error]
           end
  | None => []
  end.

(** What the error page shows, if the document can be written. *)
Definition shown (w : Window) (reason : string) : list Event :=
  match bodyFault w with
  | Some _ => []
  | None => [ShowError reason]
  end.

(** ** Vocabulary of the statements *)

(** A state with further effects appended. *)
Definition add_effects (s : State) (es : list Event) : State :=
  mkState (localStorage s) (clockReads s) (provider s) (storedStateData s)
    (effects s ++ es).

(** The storage after [removeItem] on each key in turn. *)
Definition delete_all (keys : list string) (m : gmap string string)
  : gmap string string :=
  fold_left (fun acc k => delete k acc) keys m.

(** The keys lines 157-166 remove, given the provider built so far. *)
Definition cleanup_keys
    (getKey : BrowserOAuthClientProvider -> string -> string) (w : Window)
    (p : option BrowserOAuthClientProvider) : list string :=
  match stateKey w with
  | Some k => [k]
  | None => []
  end
  ++ match p with
     | Some p => [getKey p "code_verifier"; getKey p "last_auth_url"]
     | None => []
     end.

(** The test of line 48 on a stored [expiry] and a clock reading. *)
Definition expired (expiry : option Z) (now : Z) : bool :=
  match expiry with
  | Some e => negb (Js.truthy_number e) || (e <? now)
  | None => true
  end.

(** How often line 48 reads the clock: not at all when [!expiry] already
    decides. *)
Definition expiry_reads (expiry : option Z) : nat :=
  match expiry with
  | Some e => if Js.truthy_number e then 1%nat else 0%nat
  | None => 0%nat
  end.

(** The redirect passes the checks of lines 26-34 and its state names a
    pending entry, stored under [key], that [JSON.parse] reads as [st]. *)
Definition finds (JSON_parse : string -> option (option StoredState.t))
    (w : Window) (storage : gmap string string) (key : string)
    (st : StoredState.t) : Prop :=
  Js.truthy (error w) = false /\ Js.truthy (code w) = true
  /\ stateKey w = Some key
  /\ exists text, storage !! key = Some text
                  /\ Js.truthy_string text = true
                  /\ JSON_parse text = Some (Some st).

(** The key an entry's result is published under, and the text written. *)
Definition result_key (po : ProviderOptions.t) (sessionId : string) : string :=
  ProviderOptions.storageKeyPrefix po +:+ ":auth_result_" +:+ sessionId.

Definition result_text (success : bool) (error : option string)
    (timestamp now : Z) : string :=
  AuthResult.JSON_stringify
    (AuthResult.mk success error timestamp (now + 300000)).

(** The reason the handler derives from an exchange that did not answer
    [AUTHORIZED]: the message of what was thrown, or the unexpected status
    (lines 72, 109 and 113). *)
Definition exchange_failure (outcome : Thrown + string) : option string :=
  match outcome with
  | inl e => Some (message_of e)
  | inr status =>
      if String.eqb status "AUTHORIZED" then None
      else Some (Reason.unexpected_status status)
  end.

(** The ways through the [try] block, each with the result and the state it
    hands on: to the caller on success, to the [catch] block otherwise. *)
Inductive try_path (JSON_parse : string -> option (option StoredState.t))
    (auth : BrowserOAuthClientProvider -> string -> string ->
            gmap string string -> (Thrown + string) * gmap string string)
    (w : Window) (storage : gmap string string)
  : (Thrown + Terminal) * State -> Prop :=
  | path_denied :
      Js.truthy (error w) = true ->
      try_path JSON_parse auth w storage
        (inl (new_Error (Reason.authorization_denied (error w)
                           (errorDescription w))), initial storage)
  | path_missing_code :
      Js.truthy (error w) = false -> Js.truthy (code w) = false ->
      try_path JSON_parse auth w storage
        (inl (new_Error Reason.missing_code), initial storage)
  | path_missing_state :
      Js.truthy (error w) = false -> Js.truthy (code w) = true ->
      stateKey w = None ->
      try_path JSON_parse auth w storage
        (inl (new_Error Reason.missing_state), initial storage)
  | path_unknown_state key :
      Js.truthy (error w) = false -> Js.truthy (code w) = true ->
      stateKey w = Some key -> Js.truthy (storage !! key) = false ->
      try_path JSON_parse auth w storage
        (inl (new_Error (Reason.unknown_state (state w))), initial storage)
  | path_unparseable key text :
      Js.truthy (error w) = false -> Js.truthy (code w) = true ->
      stateKey w = Some key -> storage !! key = Some text ->
      Js.truthy_string text = true -> JSON_parse text = None ->
      try_path JSON_parse auth w storage
        (inl (new_Error Reason.unparseable_state), initial storage)
  | path_null key text :
      Js.truthy (error w) = false -> Js.truthy (code w) = true ->
      stateKey w = Some key -> storage !! key = Some text ->
      Js.truthy_string text = true -> JSON_parse text = Some None ->
      try_path JSON_parse auth w storage
        (inl (ErrorObject "TypeError"
                "Cannot read properties of null (reading 'expiry')"),
         initial storage)
  | path_expired key st :
      finds JSON_parse w storage key st ->
      expired (StoredState.expiry st) (clock w 0) = true ->
      try_path JSON_parse auth w storage
        (inl (new_Error Reason.expired_state),
         mkState (delete key storage) (expiry_reads (StoredState.expiry st))
           None (Some st) [RemoveItem key])
  | path_missing_options key st :
      finds JSON_parse w storage key st ->
      expired (StoredState.expiry st) (clock w 0) = false ->
      StoredState.providerOptions st = None ->
      try_path JSON_parse auth w storage
        (inl (new_Error Reason.missing_options),
         mkState storage 1 None (Some st) [])
  | path_exchange_failed key st po outcome storage' reason :
      finds JSON_parse w storage key st ->
      expired (StoredState.expiry st) (clock w 0) = false ->
      StoredState.providerOptions st = Some po ->
      auth (new_BrowserOAuthClientProvider (ProviderOptions.serverUrl po) po)
        (ProviderOptions.serverUrl po) (Js.template (code w)) storage
      = (outcome, storage') ->
      exchange_failure outcome = Some reason ->
      try_path JSON_parse auth w storage
        (inl match outcome with
             | inl e => e
             | inr _ => new_Error reason
             end,
         mkState storage' 1
           (Some (new_BrowserOAuthClientProvider
                    (ProviderOptions.serverUrl po) po))
           (Some st)
           [Exchange (ProviderOptions.serverUrl po) (Js.template (code w))])
  | path_authorized key st po storage' :
      finds JSON_parse w storage key st ->
      expired (StoredState.expiry st) (clock w 0) = false ->
      StoredState.providerOptions st = Some po ->
      auth (new_BrowserOAuthClientProvider (ProviderOptions.serverUrl po) po)
        (ProviderOptions.serverUrl po) (Js.template (code w)) storage
      = (inr "AUTHORIZED", storage') ->
      try_path JSON_parse auth w storage
        (inr CompletedSuccess,
         if Js.truthy (StoredState.authSessionId st) then
           let key' :=
             result_key po (Js.template (StoredState.authSessionId st)) in
           let text := result_text true None (clock w 1) (clock w 2) in
           mkState (delete key (<[key' := text]> storage')) 3
             (Some (new_BrowserOAuthClientProvider
                      (ProviderOptions.serverUrl po) po))
             (Some st)
             ([Exchange (ProviderOptions.serverUrl po) (Js.template (code w));
               SetItem key' text]
              ++ messages w true None ++ [CloseAfter 100; RemoveItem key])
         else
           mkState (delete key storage') 1
             (Some (new_BrowserOAuthClientProvider
                      (ProviderOptions.serverUrl po) po))
             (Some st)
             ([Exchange (ProviderOptions.serverUrl po) (Js.template (code w))]
              ++ messages w true None ++ [CloseAfter 100; RemoveItem key])).

(** ** Further observations of a run *)

(** The messages the opener received. *)
Fixpoint only_messages (es : list Event) : list Event :=
  match es with
  | [] => []
  | PostMessage ok e :: rest => PostMessage ok e :: only_messages rest
  | _ :: rest => only_messages rest
  end.

(** The error pages shown. *)
Fixpoint only_pages (es : list Event) : list Event :=
  match es with
  | [] => []
  | ShowError m :: rest => ShowError m :: only_pages rest
  | _ :: rest => only_pages rest
  end.

(** The effects other than the error page. *)
Fixpoint without_pages (es : list Event) : list Event :=
  match es with
  | [] => []
  | ShowError _ :: rest => without_pages rest
  | e :: rest => e :: without_pages rest
  end.

(** The delays after which the window was scheduled to close. *)
Fixpoint closings (es : list Event) : list Z :=
  match es with
  | [] => []
  | CloseAfter ms :: rest => ms :: closings rest
  | _ :: rest => closings rest
  end.

(** What follows the first message to the opener. *)
Fixpoint since_message (es : list Event) : list Event :=
  match es with
  | [] => []
  | PostMessage _ _ :: rest => rest
  | _ :: rest => since_message rest
  end.

(** The storage the handler works on once the exchange is over: what the
    exchange left, or the initial storage when no exchange was attempted. *)
Definition exchanged_storage
    (auth : BrowserOAuthClientProvider -> string -> string ->
            gmap string string -> (Thrown + string) * gmap string string)
    (storage : gmap string string) (s : State) : gmap string string :=
  match provider s, exchanges (effects s) with
  | Some p, (url, c) :: _ => snd (auth p url c storage)
  | _, _ => storage
  end.

(** ** Running the handler symbolically

    The equations of the blocks, then one equation per way through the
    [try] block and per behaviour of the [catch] block. *)

Lemma notify_opener_eq w ok err s :
  notify_opener w ok err s = (inr tt, add_effects s (messages w ok err)).
Proof.
  unfold notify_opener, messages, add_effects, when, try_catch, postMessage,
    emit, throw, ret.
  destruct s as [ls n p d es]; cbn.
  destruct (opener w) as [o|]; [destruct (closed o); cbn|];
    rewrite ?app_nil_r; try reflexivity.
  destruct (postMessageFault o); cbn; rewrite ?app_nil_r; reflexivity.
Qed.

Lemma display_error_eq w m s :
  display_error w m s = (inr tt, add_effects s (shown w m)).
Proof.
  unfold display_error, shown, add_effects, try_catch, emit, throw, ret.
  destruct s as [ls n p d es]; cbn.
  destruct (bodyFault w); cbn; rewrite ?app_nil_r; reflexivity.
Qed.

Lemma clean_up_eq getKey w s :
  clean_up getKey w s =
  (inr tt,
   mkState (delete_all (cleanup_keys getKey w (provider s)) (localStorage s))
     (clockReads s) (provider s) (storedStateData s)
     (effects s ++ map RemoveItem (cleanup_keys getKey w (provider s)))).
Proof.
  unfold clean_up, cleanup_keys, delete_all, bind, removeItem, get_provider, ret.
  destruct s as [ls n p d es]; cbn.
  destruct (stateKey w) as [k|], p as [p|]; cbn;
    rewrite <- ?app_assoc, ?app_nil_r; reflexivity.
Qed.

Ltac monad_cbv :=
  cbv [run onMcpAuthorization try_catch try_block catch_block bind ret throw
       when emit getItem setItem removeItem set_provider set_storedStateData
       get_provider get_storedStateData initial Date_now await_auth
       read_storedStateData write_error_result
       authResultKey write_result new_Error message_of];
  cbn [localStorage clockReads provider storedStateData effects
       fst snd negb app add_effects Js.truthy Js.template].

(** Weak-head evaluation of the left-hand side, one decision at a time. *)
Ltac whnf_lhs :=
  match goal with
  | |- ?l = _ =>
      let l' := eval lazy head beta iota zeta delta
                  [run onMcpAuthorization try_catch try_block catch_block bind
                   ret throw when emit getItem setItem removeItem set_provider
                   set_storedStateData get_provider get_storedStateData
                   initial Date_now await_auth read_storedStateData
                   write_error_result authResultKey write_result
                   localStorage clockReads provider storedStateData effects
                   negb]
                in l in
      progress change l with l'
  end.

Ltac use_hyps :=
  match goal with
  | H : ?x = _ |- context [?x] => rewrite H
  end.

Ltac rewrite_blocks :=
  first [ rewrite String.eqb_refl | rewrite notify_opener_eq
        | rewrite display_error_eq | rewrite clean_up_eq ].

Ltac simp :=
  repeat first [ whnf_lhs
               | progress cbn [Js.truthy Js.template localStorage clockReads
                               provider storedStateData effects fst snd
                               initial add_effects app]
               | use_hyps | rewrite_blocks ];
  monad_cbv.

Section TryBlock.
Variable JSON_parse : string -> option (option StoredState.t).
Variable auth :
  BrowserOAuthClientProvider -> string -> string -> gmap string string ->
  (Thrown + string) * gmap string string.
Variable w : Window.
Variable storage : gmap string string.

Lemma try_denied :
  Js.truthy (error w) = true ->
  try_block JSON_parse auth w (initial storage)
  = (inl (new_Error (Reason.authorization_denied (error w)
                       (errorDescription w))), initial storage).
Proof. intros H. simp. reflexivity. Qed.

Lemma try_missing_code :
  Js.truthy (error w) = false -> Js.truthy (code w) = false ->
  try_block JSON_parse auth w (initial storage)
  = (inl (new_Error Reason.missing_code), initial storage).
Proof. intros H1 H2. simp. reflexivity. Qed.

Lemma try_missing_state :
  Js.truthy (error w) = false -> Js.truthy (code w) = true ->
  stateKey w = None ->
  try_block JSON_parse auth w (initial storage)
  = (inl (new_Error Reason.missing_state), initial storage).
Proof. intros H1 H2 H3. simp. reflexivity. Qed.

Lemma try_unknown_state key :
  Js.truthy (error w) = false -> Js.truthy (code w) = true ->
  stateKey w = Some key -> Js.truthy (storage !! key) = false ->
  try_block JSON_parse auth w (initial storage)
  = (inl (new_Error (Reason.unknown_state (state w))), initial storage).
Proof. intros H1 H2 H3 H4. simp. reflexivity. Qed.

Lemma try_unparseable key text :
  Js.truthy (error w) = false -> Js.truthy (code w) = true ->
  stateKey w = Some key -> storage !! key = Some text ->
  Js.truthy_string text = true -> JSON_parse text = None ->
  try_block JSON_parse auth w (initial storage)
  = (inl (new_Error Reason.unparseable_state), initial storage).
Proof. intros H1 H2 H3 H4 H5 H6. simp. reflexivity. Qed.

Lemma try_null key text :
  Js.truthy (error w) = false -> Js.truthy (code w) = true ->
  stateKey w = Some key -> storage !! key = Some text ->
  Js.truthy_string text = true -> JSON_parse text = Some None ->
  try_block JSON_parse auth w (initial storage)
  = (inl (ErrorObject "TypeError"
            "Cannot read properties of null (reading 'expiry')"),
     initial storage).
Proof. intros H1 H2 H3 H4 H5 H6. simp. reflexivity. Qed.

Section Found.
Variables (key : string) (st : StoredState.t).
Hypothesis Hfinds : finds JSON_parse w storage key st.

Lemma try_expired :
  expired (StoredState.expiry st) (clock w 0) = true ->
  try_block JSON_parse auth w (initial storage)
  = (inl (new_Error Reason.expired_state),
     mkState (delete key storage) (expiry_reads (StoredState.expiry st))
       None (Some st) [RemoveItem key]).
Proof.
  destruct Hfinds as (H1 & H2 & H3 & text & H4 & H5 & H6).
  unfold expired, expiry_reads. intros H.
  destruct (StoredState.expiry st) as [e|] eqn:He;
    [destruct (Js.truthy_number e) eqn:Ht; cbn [negb orb] in H|];
    simp; reflexivity.
Qed.

Lemma try_missing_options :
  expired (StoredState.expiry st) (clock w 0) = false ->
  StoredState.providerOptions st = None ->
  try_block JSON_parse auth w (initial storage)
  = (inl (new_Error Reason.missing_options),
     mkState storage 1 None (Some st) []).
Proof.
  destruct Hfinds as (H1 & H2 & H3 & text & H4 & H5 & H6).
  unfold expired. intros H Hpo.
  destruct (StoredState.expiry st) as [e|] eqn:He; [|discriminate].
  destruct (Js.truthy_number e) eqn:Ht; [cbn [negb orb] in H|discriminate].
  simp; reflexivity.
Qed.

Section Exchange.
Variables (po : ProviderOptions.t) (storage' : gmap string string).
Hypothesis Hfresh : expired (StoredState.expiry st) (clock w 0) = false.
Hypothesis Hpo : StoredState.providerOptions st = Some po.

Local Abbreviation url := (ProviderOptions.serverUrl po).
Local Abbreviation p := (new_BrowserOAuthClientProvider url po).

Lemma try_exchange_failed outcome reason :
  auth p url (Js.template (code w)) storage = (outcome, storage') ->
  exchange_failure outcome = Some reason ->
  try_block JSON_parse auth w (initial storage)
  = (inl match outcome with
         | inl e => e
         | inr _ => new_Error reason
         end,
     mkState storage' 1 (Some p) (Some st)
       [Exchange url (Js.template (code w))]).
Proof.
  destruct Hfinds as (H1 & H2 & H3 & text & H4 & H5 & H6).
  unfold expired in Hfresh. intros Hauth Hreason.
  destruct (StoredState.expiry st) as [x|] eqn:He; [|discriminate].
  destruct (Js.truthy_number x) eqn:Ht;
    [cbn [negb orb] in Hfresh|discriminate].
  destruct outcome as [e|status]; cbn [exchange_failure] in Hreason.
  - simp; reflexivity.
  - destruct (String.eqb status "AUTHORIZED") eqn:Hs; [discriminate|].
    injection Hreason as <-. simp; reflexivity.
Qed.

Lemma try_authorized :
  auth p url (Js.template (code w)) storage
  = (inr "AUTHORIZED", storage') ->
  try_block JSON_parse auth w (initial storage)
  = (inr CompletedSuccess,
     if Js.truthy (StoredState.authSessionId st) then
       let key' :=
         result_key po (Js.template (StoredState.authSessionId st)) in
       let text := result_text true None (clock w 1) (clock w 2) in
       mkState (delete key (<[key' := text]> storage')) 3 (Some p)
         (Some st)
         ([Exchange url (Js.template (code w)); SetItem key' text]
          ++ messages w true None ++ [CloseAfter 100; RemoveItem key])
     else
       mkState (delete key storage') 1 (Some p) (Some st)
         ([Exchange url (Js.template (code w))]
          ++ messages w true None ++ [CloseAfter 100; RemoveItem key])).
Proof.
  destruct Hfinds as (H1 & H2 & H3 & text & H4 & H5 & H6).
  unfold expired in Hfresh. intros Hauth.
  destruct (StoredState.expiry st) as [x|] eqn:He; [|discriminate].
  destruct (Js.truthy_number x) eqn:Ht;
    [cbn [negb orb] in Hfresh|discriminate].
  destruct (StoredState.authSessionId st) as [sid|] eqn:Hsid;
    [destruct (Js.truthy_string sid) eqn:Hsid'|];
    simp; rewrite <- ?app_assoc; reflexivity.
Qed.
End Exchange.
End Found.

(** Every run of the [try] block takes one of the ways of [try_path]. *)
Lemma try_block_path :
  try_path JSON_parse auth w storage (try_block JSON_parse auth w (initial storage)).
Proof.
  destruct (Js.truthy (error w)) eqn:H1;
    [rewrite try_denied by done; by constructor|].
  destruct (Js.truthy (code w)) eqn:H2;
    [|rewrite try_missing_code by done; by constructor].
  destruct (stateKey w) as [key|] eqn:H3;
    [|rewrite try_missing_state by done; by constructor].
  destruct (Js.truthy (storage !! key)) eqn:H4;
    [|erewrite try_unknown_state by done; by econstructor].
  destruct (storage !! key) as [text|] eqn:H5; [|discriminate].
  cbn [Js.truthy] in H4.
  destruct (JSON_parse text) as [[st|]|] eqn:H6;
    [ | erewrite try_null by done; by econstructor
      | erewrite try_unparseable by done; by econstructor ].
  assert (Hfinds : finds JSON_parse w storage key st)
    by (repeat split; try done; by exists text).
  destruct (expired (StoredState.expiry st) (clock w 0)) eqn:H7;
    [erewrite try_expired by done; by econstructor|].
  destruct (StoredState.providerOptions st) as [po|] eqn:H8;
    [|erewrite try_missing_options by done; by econstructor].
  destruct (auth (new_BrowserOAuthClientProvider
                    (ProviderOptions.serverUrl po) po)
              (ProviderOptions.serverUrl po) (Js.template (code w)) storage)
    as [outcome storage'] eqn:H9.
  destruct (exchange_failure outcome) as [reason|] eqn:H10.
  - erewrite try_exchange_failed by done. by econstructor.
  - destruct outcome as [e|status]; [discriminate|].
    cbn [exchange_failure] in H10.
    destruct (String.eqb status "AUTHORIZED") eqn:Hs; [|discriminate].
    apply String.eqb_eq in Hs; subst status.
    erewrite try_authorized by done. by econstructor.
Qed.
End TryBlock.

Section CatchBlock.
Variable getKey : BrowserOAuthClientProvider -> string -> string.
Variable w : Window.

Lemma catch_block_quiet err s :
  match storedStateData s with
  | Some st => Js.truthy (StoredState.authSessionId st) = false
  | None => True
  end ->
  catch_block getKey w err s
  = (inr (CompletedFailure (message_of err)),
     mkState
       (delete_all (cleanup_keys getKey w (provider s)) (localStorage s))
       (clockReads s) (provider s) (storedStateData s)
       (effects s ++ messages w false (Some (message_of err))
        ++ shown w (message_of err)
        ++ map RemoveItem (cleanup_keys getKey w (provider s)))).
Proof.
  destruct s as [ls n p d es]; cbn [storedStateData]; intros H.
  destruct d as [st|]; simp; rewrite <- ?app_assoc; reflexivity.
Qed.

Lemma catch_block_publishes err s st po sid :
  storedStateData s = Some st ->
  StoredState.authSessionId st = Some sid -> Js.truthy_string sid = true ->
  StoredState.providerOptions st = Some po ->
  let text := result_text false (Some (message_of err))
                (clock w (clockReads s)) (clock w (S (clockReads s))) in
  catch_block getKey w err s
  = (inr (CompletedFailure (message_of err)),
     mkState
       (delete_all (cleanup_keys getKey w (provider s))
          (<[result_key po sid := text]> (localStorage s)))
       (S (S (clockReads s))) (provider s) (storedStateData s)
       (effects s ++ [SetItem (result_key po sid) text]
        ++ messages w false (Some (message_of err))
        ++ shown w (message_of err)
        ++ map RemoveItem (cleanup_keys getKey w (provider s)))).
Proof.
  destruct s as [ls n p d es]; cbn [storedStateData clockReads].
  intros -> Hsid Ht Hpo.
  simp; rewrite <- ?app_assoc; reflexivity.
Qed.

Lemma catch_block_faults err s st :
  storedStateData s = Some st ->
  Js.truthy (StoredState.authSessionId st) = true ->
  StoredState.providerOptions st = None ->
  catch_block getKey w err s
  = (inl (ErrorObject "TypeError"
            "Cannot read properties of undefined (reading 'storageKeyPrefix')"),
     s).
Proof.
  destruct s as [ls n p d es]; cbn [storedStateData].
  intros -> Hsid Hpo. simp; reflexivity.
Qed.
End CatchBlock.

(** ** Lists of effects and sets of keys *)

Lemma published_app es fs :
  published (es ++ fs) = (published es ++ published fs)%list.
Proof.
  induction es as [|[] es IH]; cbn [published app]; rewrite ?IH; reflexivity.
Qed.

Lemma exchanges_app es fs :
  exchanges (es ++ fs) = (exchanges es ++ exchanges fs)%list.
Proof.
  induction es as [|[] es IH]; cbn [exchanges app]; rewrite ?IH; reflexivity.
Qed.

Lemma without_messages_app es fs :
  without_messages (es ++ fs)
  = (without_messages es ++ without_messages fs)%list.
Proof.
  induction es as [|[] es IH]; cbn [without_messages app]; rewrite ?IH;
    reflexivity.
Qed.

Lemma published_messages w ok err : published (messages w ok err) = [].
Proof.
  unfold messages.
  destruct (opener w) as [[[] [|]]|]; reflexivity.
Qed.

Lemma exchanges_messages w ok err : exchanges (messages w ok err) = [].
Proof.
  unfold messages.
  destruct (opener w) as [[[] [|]]|]; reflexivity.
Qed.

Lemma without_messages_messages w ok err :
  without_messages (messages w ok err) = [].
Proof.
  unfold messages.
  destruct (opener w) as [[[] [|]]|]; reflexivity.
Qed.

Lemma published_shown w m : published (shown w m) = [].
Proof. unfold shown. destruct (bodyFault w); reflexivity. Qed.

Lemma exchanges_shown w m : exchanges (shown w m) = [].
Proof. unfold shown. destruct (bodyFault w); reflexivity. Qed.

Lemma without_messages_shown w m : without_messages (shown w m) = shown w m.
Proof. unfold shown. destruct (bodyFault w); reflexivity. Qed.

Lemma published_removals keys : published (map RemoveItem keys) = [].
Proof. induction keys; cbn; auto. Qed.

Lemma exchanges_removals keys : exchanges (map RemoveItem keys) = [].
Proof. induction keys; cbn; auto. Qed.

Lemma without_messages_removals keys :
  without_messages (map RemoveItem keys) = map RemoveItem keys.
Proof. induction keys; cbn; congruence. Qed.

Create Rewrite HintDb effects_db.
#[local] Hint Rewrite published_app exchanges_app without_messages_app
  published_messages exchanges_messages without_messages_messages
  published_shown exchanges_shown without_messages_shown
  published_removals exchanges_removals without_messages_removals
  app_nil_r app_nil_l : effects_db.

Ltac effects_simpl :=
  repeat (progress
            (cbn [fst snd effects localStorage provider storedStateData
                  clockReads app hd_error exchanges published
                  without_messages message_of new_Error];
             autorewrite with effects_db)).

Lemma published_without_messages es :
  published (without_messages es) = published es.
Proof. induction es as [|[] es IH]; cbn; congruence. Qed.

Lemma delete_all_cons k keys (m : gmap string string) :
  delete_all (k :: keys) m = delete_all keys (delete k m).
Proof. reflexivity. Qed.

Lemma delete_all_absent keys (m : gmap string string) k :
  m !! k = None -> delete_all keys m !! k = None.
Proof.
  revert m. induction keys as [|k' keys IH]; intros m H; [exact H|].
  rewrite delete_all_cons. apply IH.
  destruct (decide (k' = k)) as [->|Hne];
    [apply lookup_delete_eq | by rewrite lookup_delete_ne].
Qed.

Lemma delete_all_removes keys (m : gmap string string) k :
  In k keys -> delete_all keys m !! k = None.
Proof.
  revert m. induction keys as [|k' keys IH]; intros m; [intros []|].
  intros [->|Hin]; rewrite delete_all_cons.
  - apply delete_all_absent, lookup_delete_eq.
  - by apply IH.
Qed.

Lemma stateKey_state w : stateKey w = None <-> Js.truthy (state w) = false.
Proof. unfold stateKey. destruct (Js.truthy (state w)); split; congruence. Qed.

Lemma expired_before e now : e < now -> expired (Some e) now = true.
Proof.
  intros H. unfold expired. apply orb_true_iff; right. by apply Z.ltb_lt.
Qed.

Lemma truthy_session (v : option string) :
  Js.truthy v = true ->
  exists sid, v = Some sid /\ Js.truthy_string sid = true.
Proof. destruct v as [sid|]; [by exists sid|discriminate]. Qed.

Lemma exchange_failure_message outcome reason :
  exchange_failure outcome = Some reason ->
  message_of match outcome with
             | inl e => e
             | inr _ => new_Error reason
             end = reason.
Proof. destruct outcome; cbn; congruence. Qed.

Lemma cleanup_keys_state getKey w p key :
  stateKey w = Some key -> In key (cleanup_keys getKey w p).
Proof.
  intros H. unfold cleanup_keys. rewrite H. apply in_or_app; left; by left.
Qed.

Lemma finds_unique JSON_parse w storage key text st key' st' :
  stateKey w = Some key -> storage !! key = Some text ->
  JSON_parse text = Some (Some st) ->
  finds JSON_parse w storage key' st' -> key' = key /\ st' = st.
Proof.
  intros Hkey Htext Hparse (_ & _ & Hkey' & text' & Htext' & _ & Hparse').
  assert (key' = key) as -> by congruence.
  split; congruence.
Qed.

Section Claims.
Variable JSON_parse : string -> option (option StoredState.t).
Variable auth :
  BrowserOAuthClientProvider -> string -> string -> gmap string string ->
  (Thrown + string) * gmap string string.
Variable getKey : BrowserOAuthClientProvider -> string -> string.

Lemma run_caught w storage e s :
  try_block JSON_parse auth w (initial storage) = (inl e, s) ->
  run JSON_parse auth getKey w storage = catch_block getKey w e s.
Proof.
  intros H. unfold run, onMcpAuthorization, try_catch.
  by rewrite H.
Qed.

Lemma run_completed w storage t s :
  try_block JSON_parse auth w (initial storage) = (inr t, s) ->
  run JSON_parse auth getKey w storage = (inr t, s).
Proof.
  intros H. unfold run, onMcpAuthorization, try_catch.
  by rewrite H.
Qed.

(** A failure before the stored state is loaded: nothing is exchanged or
    published, the reason goes to the opener and to the page, and the state
    entry, if the redirect named one, is removed. *)
Lemma run_early_failure w storage e :
  try_block JSON_parse auth w (initial storage) = (inl e, initial storage) ->
  run JSON_parse auth getKey w storage
  = (inr (CompletedFailure (message_of e)),
     mkState (delete_all (cleanup_keys getKey w None) storage) 0 None None
       (messages w false (Some (message_of e)) ++ shown w (message_of e)
        ++ map RemoveItem (cleanup_keys getKey w None))).
Proof.
  intros H. rewrite (run_caught _ _ _ _ H).
  by rewrite catch_block_quiet.
Qed.

(** C5. The redirect parameters are checked in a fixed order, and each
    check stops the handler: a present [error] fails with the provider's
    error and description whatever else the redirect carries; otherwise a
    missing [code] fails with the missing-code reason; otherwise a missing
    [state] fails with the missing-state reason.  In none of the three
    cases is a code exchanged or a result published.  (A parameter is
    present when its value is not empty, as the truthiness tests of the
    source read it.) *)
Theorem validation_order w storage :
  let r := run JSON_parse auth getKey w storage in
  (Js.truthy (error w) = true ->
   fst r = inr (CompletedFailure
                  (Reason.authorization_denied (error w)
                     (errorDescription w))))
  /\ (Js.truthy (error w) = false -> Js.truthy (code w) = false ->
      fst r = inr (CompletedFailure Reason.missing_code))
  /\ (Js.truthy (error w) = false -> Js.truthy (code w) = true ->
      Js.truthy (state w) = false ->
      fst r = inr (CompletedFailure Reason.missing_state))
  /\ (Js.truthy (error w) = true \/ Js.truthy (code w) = false
      \/ Js.truthy (state w) = false ->
      exchanges (effects (snd r)) = [] /\ published (effects (snd r)) = []).
Proof.
  cbv zeta. split; [|split; [|split]].
  - intros H. by rewrite (run_early_failure _ _ _ (try_denied _ _ _ _ H)).
  - intros H1 H2.
    by rewrite (run_early_failure _ _ _ (try_missing_code _ _ _ _ H1 H2)).
  - intros H1 H2 H3%stateKey_state.
    by rewrite (run_early_failure _ _ _
                  (try_missing_state _ _ _ _ H1 H2 H3)).
  - intros H.
    assert (exists e, try_block JSON_parse auth w (initial storage) = (inl e, initial storage))
      as [e He].
    { destruct (Js.truthy (error w)) eqn:H1;
        [eexists; by apply try_denied|].
      destruct (Js.truthy (code w)) eqn:H2;
        [|eexists; by apply try_missing_code].
      destruct H as [H'|[H'|H'%stateKey_state]]; try discriminate.
      eexists; by apply try_missing_state. }
    rewrite (run_early_failure _ _ _ He); cbn [snd effects].
    by autorewrite with effects_db.
Qed.

(** C1 (as the code has it).  When the redirect carries [error], no code is
    exchanged and nothing is published to storage, whether or not the
    pending entry names a session: the stored state is never loaded on this
    path.  The reason [OAuth error: <error> - <description>] reaches the
    opener by [postMessage] when one is reachable and is shown on the page,
    and the state entry named by the redirect is removed. *)
Theorem denied_redirect_is_reported_unpublished w storage :
  Js.truthy (error w) = true ->
  let reason :=
    Reason.authorization_denied (error w) (errorDescription w) in
  let r := run JSON_parse auth getKey w storage in
  fst r = inr (CompletedFailure reason)
  /\ exchanges (effects (snd r)) = []
  /\ published (effects (snd r)) = []
  /\ effects (snd r)
     = (messages w false (Some reason) ++ shown w reason
        ++ map RemoveItem (cleanup_keys getKey w None))%list
  /\ localStorage (snd r) = delete_all (cleanup_keys getKey w None) storage.
Proof.
  intros H reason r; subst r reason.
  rewrite (run_early_failure _ _ _ (try_denied _ _ _ _ H)).
  cbn [fst snd effects localStorage message_of new_Error].
  repeat split; by autorewrite with effects_db.
Qed.

(** C10. A pending entry whose text [JSON.parse] rejects fails the attempt
    with the parse-failure reason; the entry is removed by the cleanup,
    nothing is exchanged, and nothing is published whatever the text
    contained, because the stored state was never loaded.  (The entry
    exists when [getItem] returns a non-empty string: line 38 reads an
    empty one as missing.) *)
Theorem unparseable_entry_is_dropped_unpublished w storage key text :
  Js.truthy (error w) = false -> Js.truthy (code w) = true ->
  stateKey w = Some key -> storage !! key = Some text ->
  Js.truthy_string text = true -> JSON_parse text = None ->
  let r := run JSON_parse auth getKey w storage in
  fst r = inr (CompletedFailure Reason.unparseable_state)
  /\ storedStateData (snd r) = None
  /\ published (effects (snd r)) = []
  /\ exchanges (effects (snd r)) = []
  /\ localStorage (snd r) = delete key storage.
Proof.
  intros H1 H2 H3 H4 H5 H6 r; subst r.
  rewrite (run_early_failure _ _ _
             (try_unparseable _ _ _ _ _ _ H1 H2 H3 H4 H5 H6)).
  unfold cleanup_keys; rewrite H3.
  cbn [fst snd effects localStorage storedStateData message_of new_Error].
  repeat split; by autorewrite with effects_db.
Qed.

(** C2 (as the code has it).  A pending entry whose [expiry] lies strictly
    before the clock reading of line 48 is removed on the spot, before
    anything else happens to the storage, no code is exchanged, and a later
    lookup of its key finds nothing; the attempt fails with the
    expired-state reason.  The last part is stated for entries that name no
    session or carry provider options. *)
Theorem expired_entry_is_collected w storage key st e :
  finds JSON_parse w storage key st ->
  StoredState.expiry st = Some e -> e < clock w 0 ->
  let r := run JSON_parse auth getKey w storage in
  localStorage (snd r) !! key = None
  /\ hd_error (effects (snd r)) = Some (RemoveItem key)
  /\ exchanges (effects (snd r)) = []
  /\ ((Js.truthy (StoredState.authSessionId st) = true ->
       StoredState.providerOptions st <> None) ->
      fst r = inr (CompletedFailure Reason.expired_state)).
Proof.
  intros Hfinds He Hlt r; subst r.
  pose proof (expired_before _ _ Hlt) as Hexp; rewrite <- He in Hexp.
  pose proof Hfinds as (_ & _ & Hkey & _).
  rewrite (run_caught _ _ _ _ (try_expired _ _ _ _ _ _ Hfinds Hexp)).
  destruct (Js.truthy (StoredState.authSessionId st)) eqn:Hsession.
  - pose proof Hsession as (sid & Hsid & Hsid')%truthy_session.
    destruct (StoredState.providerOptions st) as [po|] eqn:Hpo.
    + erewrite catch_block_publishes by done. effects_simpl.
      split; [|done].
      apply delete_all_removes, cleanup_keys_state, Hkey.
    + erewrite catch_block_faults by done. effects_simpl.
      split; [apply lookup_delete_eq|split; [done|split; [done|]]].
      intros H; by destruct H.
  - rewrite catch_block_quiet by (cbn; done). effects_simpl.
    split; [|done].
    apply delete_all_removes, cleanup_keys_state, Hkey.
Qed.

(** C3 (as the code has it).  A redirect carrying a code and the state of a
    pending entry that is not expired, names a session and has provider
    options, followed by an exchange that answers [AUTHORIZED], ends in
    success: exactly one result is published, under
    [<storageKeyPrefix>:auth_result_<session>], it says [success: true],
    its [timestamp] is the first clock reading after the exchange and its
    [expiry] is the next reading plus 300000, and the pending entry is gone
    afterwards.  When the two readings coincide in [t] the result is
    [{success: true, timestamp: t, expiry: t + 300000}]. *)
Theorem authorized_flow_publishes_success w storage key st po sid storage' :
  finds JSON_parse w storage key st ->
  expired (StoredState.expiry st) (clock w 0) = false ->
  StoredState.providerOptions st = Some po ->
  StoredState.authSessionId st = Some sid -> Js.truthy_string sid = true ->
  auth (new_BrowserOAuthClientProvider (ProviderOptions.serverUrl po) po)
    (ProviderOptions.serverUrl po) (Js.template (code w)) storage
  = (inr "AUTHORIZED", storage') ->
  let r := run JSON_parse auth getKey w storage in
  fst r = inr CompletedSuccess
  /\ published (effects (snd r))
     = [(result_key po sid,
         AuthResult.JSON_stringify
           (AuthResult.mk true None (clock w 1) (clock w 2 + 300000)))]
  /\ localStorage (snd r) !! key = None
  /\ (result_key po sid <> key ->
      localStorage (snd r) !! result_key po sid
      = Some (AuthResult.JSON_stringify
                (AuthResult.mk true None (clock w 1) (clock w 2 + 300000))))
  /\ (forall t, clock w 1 = t -> clock w 2 = t ->
      published (effects (snd r))
      = [(result_key po sid,
          AuthResult.JSON_stringify
            (AuthResult.mk true None t (t + 300000)))]).
Proof.
  intros Hfinds Hfresh Hpo Hsid Hsid' Hauth r; subst r.
  rewrite (run_completed _ _ _ _
             (try_authorized _ _ _ _ _ _ Hfinds _ _ Hfresh Hpo Hauth)).
  rewrite Hsid; cbn [Js.truthy Js.template]; rewrite Hsid'.
  effects_simpl. unfold result_text.
  split; [done|split; [done|split; [apply lookup_delete_eq|split]]].
  - intros Hne. by rewrite lookup_delete_ne, lookup_insert_eq.
  - by intros t -> ->.
Qed.

(** C6. When the exchange fails, by throwing or by answering anything but
    [AUTHORIZED], the attempt fails with the underlying message (the thrown
    error's message, or the unexpected status); if the entry names a
    session exactly one result is published, with [success: false] and
    that message, otherwise none; and when the handler returns, the pending
    entry, the code verifier and the last authorization URL are all gone
    from storage. *)
Theorem failed_exchange_is_reported_and_cleaned
    w storage key st po outcome storage' reason :
  finds JSON_parse w storage key st ->
  expired (StoredState.expiry st) (clock w 0) = false ->
  StoredState.providerOptions st = Some po ->
  let p :=
    new_BrowserOAuthClientProvider (ProviderOptions.serverUrl po) po in
  auth p (ProviderOptions.serverUrl po) (Js.template (code w)) storage
  = (outcome, storage') ->
  exchange_failure outcome = Some reason ->
  let r := run JSON_parse auth getKey w storage in
  fst r = inr (CompletedFailure reason)
  /\ published (effects (snd r))
     = (if Js.truthy (StoredState.authSessionId st)
        then [(result_key po (Js.template (StoredState.authSessionId st)),
               AuthResult.JSON_stringify
                 (AuthResult.mk false (Some reason) (clock w 1)
                    (clock w 2 + 300000)))]
        else [])
  /\ localStorage (snd r) !! key = None
  /\ localStorage (snd r) !! getKey p "code_verifier" = None
  /\ localStorage (snd r) !! getKey p "last_auth_url" = None.
Proof.
  intros Hfinds Hfresh Hpo p Hauth Hreason r; subst r p.
  pose proof Hfinds as (_ & _ & Hkey & _).
  rewrite (run_caught _ _ _ _
             (try_exchange_failed _ _ _ _ _ _ Hfinds _ _ Hfresh Hpo _ _
                Hauth Hreason)).
  pose proof (exchange_failure_message _ _ Hreason) as Hmsg.
  destruct (Js.truthy (StoredState.authSessionId st)) eqn:Hsession.
  - pose proof Hsession as (sid & Hsid & Hsid')%truthy_session.
    erewrite catch_block_publishes by done.
    rewrite Hmsg, Hsid. effects_simpl. unfold cleanup_keys; rewrite Hkey.
    unfold result_text; cbn [Js.template].
    repeat split; try done; apply delete_all_removes; cbn; tauto.
  - rewrite catch_block_quiet by (cbn; done).
    rewrite Hmsg. effects_simpl. unfold cleanup_keys; rewrite Hkey.
    repeat split; try done; apply delete_all_removes; cbn; tauto.
Qed.

(** What the [catch] block leaves when it returns: the state entry named
    by the redirect is gone. *)
Lemma catch_block_removes_state w key err s t :
  stateKey w = Some key ->
  fst (catch_block getKey w err s) = inr t ->
  localStorage (snd (catch_block getKey w err s)) !! key = None.
Proof.
  intros Hkey.
  destruct (storedStateData s) as [st|] eqn:Hst.
  - destruct (Js.truthy (StoredState.authSessionId st)) eqn:Hsession.
    + pose proof Hsession as (sid & Hsid & Hsid')%truthy_session.
      destruct (StoredState.providerOptions st) as [po|] eqn:Hpo.
      * erewrite catch_block_publishes by done. effects_simpl. intros _.
        apply delete_all_removes, cleanup_keys_state, Hkey.
      * erewrite catch_block_faults by done. discriminate.
    + rewrite catch_block_quiet by (by rewrite Hst). effects_simpl.
      intros _. apply delete_all_removes, cleanup_keys_state, Hkey.
  - rewrite catch_block_quiet by (by rewrite Hst). effects_simpl.
    intros _. apply delete_all_removes, cleanup_keys_state, Hkey.
Qed.

(** Whenever the handler returns, on any way through it, the state entry
    named by the redirect is gone. *)
Lemma returned_run_removes_state w storage key t :
  stateKey w = Some key ->
  fst (run JSON_parse auth getKey w storage) = inr t ->
  localStorage (snd (run JSON_parse auth getKey w storage)) !! key = None.
Proof.
  intros Hkey.
  pose proof (try_block_path JSON_parse auth w storage) as Hpath.
  remember (try_block JSON_parse auth w (initial storage)) as result eqn:Htry.
  symmetry in Htry.
  destruct Hpath;
    try (rewrite (run_caught _ _ _ _ Htry);
         by apply catch_block_removes_state).
  rewrite (run_completed _ _ _ _ Htry). intros _.
  match goal with
  | H : finds _ _ _ ?k _ |- _ =>
      destruct H as (_ & _ & Hkey' & _);
      assert (k = key) as -> by congruence
  end.
  destruct (Js.truthy (StoredState.authSessionId st)); effects_simpl;
    apply lookup_delete_eq.
Qed.

(** C4 (as the code has it).  After an invocation that returned, the state
    entry its redirect named is gone.  A second invocation with the same
    state therefore exchanges nothing and fails, so the two invocations
    cannot both succeed; when its redirect carries a code and no error it
    finds no entry and fails with the unknown-or-expired-state reason (with
    an error, or without a code, it fails with that check's reason before
    any lookup). *)
Theorem state_is_consumed_once w1 w2 storage key t1 :
  stateKey w1 = Some key -> state w2 = state w1 ->
  let r1 := run JSON_parse auth getKey w1 storage in
  fst r1 = inr t1 ->
  let r2 := run JSON_parse auth getKey w2 (localStorage (snd r1)) in
  localStorage (snd r1) !! key = None
  /\ exchanges (effects (snd r2)) = []
  /\ (exists reason, fst r2 = inr (CompletedFailure reason))
  /\ (Js.truthy (error w2) = false -> Js.truthy (code w2) = true ->
      fst r2 = inr (CompletedFailure (Reason.unknown_state (state w2)))).
Proof.
  intros Hkey Hstate r1 Hr1 r2; subst r1 r2.
  pose proof (returned_run_removes_state _ _ _ _ Hkey Hr1) as Hgone.
  assert (Hkey2 : stateKey w2 = Some key)
    by (unfold stateKey in *; by rewrite Hstate).
  assert (Hmissing :
            Js.truthy
              (localStorage (snd (run JSON_parse auth getKey w1 storage))
                 !! key) = false)
    by (by rewrite Hgone).
  split; [exact Hgone|].
  destruct (Js.truthy (error w2)) eqn:Herror.
  { rewrite (run_early_failure _ _ _ (try_denied _ _ _ _ Herror)).
    effects_simpl. split; [done|split; [by eexists|done]]. }
  destruct (Js.truthy (code w2)) eqn:Hcode.
  - rewrite (run_early_failure _ _ _
               (try_unknown_state _ _ _ _ _ Herror Hcode Hkey2 Hmissing)).
    effects_simpl. split; [done|split; [by eexists|done]].
  - rewrite (run_early_failure _ _ _
               (try_missing_code _ _ _ _ Herror Hcode)).
    effects_simpl. split; [done|split; [by eexists|done]].
Qed.

(** C8. When the pending entry names no session, nothing is published to
    storage on any way through the handler, and the handler still returns;
    an exchange that answers [AUTHORIZED] then ends in success all the
    same: the opener is notified if it can be, the window is scheduled to
    close, and the pending entry is removed. *)
Theorem missing_session_publishes_nothing w storage key text st :
  stateKey w = Some key -> storage !! key = Some text ->
  JSON_parse text = Some (Some st) ->
  Js.truthy (StoredState.authSessionId st) = false ->
  let r := run JSON_parse auth getKey w storage in
  published (effects (snd r)) = []
  /\ (exists t, fst r = inr t)
  /\ (forall po storage',
        finds JSON_parse w storage key st ->
        expired (StoredState.expiry st) (clock w 0) = false ->
        StoredState.providerOptions st = Some po ->
        auth (new_BrowserOAuthClientProvider
                (ProviderOptions.serverUrl po) po)
          (ProviderOptions.serverUrl po) (Js.template (code w)) storage
        = (inr "AUTHORIZED", storage') ->
        fst r = inr CompletedSuccess
        /\ effects (snd r)
           = ([Exchange (ProviderOptions.serverUrl po)
                 (Js.template (code w))]
              ++ messages w true None
              ++ [CloseAfter 100; RemoveItem key])%list
        /\ localStorage (snd r) = delete key storage').
Proof.
  intros Hkey Htext Hparse Hsession r; subst r.
  split; [|split].
  - pose proof (try_block_path JSON_parse auth w storage) as Hpath.
    remember (try_block JSON_parse auth w (initial storage)) as result eqn:Htry.
    symmetry in Htry.
    destruct Hpath;
      try match goal with
        | H : finds _ _ _ _ _ |- _ =>
            destruct (finds_unique _ _ _ _ _ _ _ _ Hkey Htext Hparse H)
              as [-> ->]
        end;
      try (rewrite (run_caught _ _ _ _ Htry),
             catch_block_quiet by (cbn; done);
           by effects_simpl).
    rewrite (run_completed _ _ _ _ Htry), Hsession. by effects_simpl.
  - pose proof (try_block_path JSON_parse auth w storage) as Hpath.
    remember (try_block JSON_parse auth w (initial storage)) as result eqn:Htry.
    symmetry in Htry.
    destruct Hpath;
      try match goal with
        | H : finds _ _ _ _ _ |- _ =>
            destruct (finds_unique _ _ _ _ _ _ _ _ Hkey Htext Hparse H)
              as [-> ->]
        end;
      try (rewrite (run_caught _ _ _ _ Htry),
             catch_block_quiet by (cbn; done);
           by eexists).
    rewrite (run_completed _ _ _ _ Htry). by eexists.
  - intros po storage' Hfinds Hfresh Hpo Hauth.
    rewrite (run_completed _ _ _ _
               (try_authorized _ _ _ _ _ _ Hfinds _ _ Hfresh Hpo Hauth)).
    rewrite Hsession. by effects_simpl.
Qed.

Section Openers.
Variables (srch : string) (clk : nat -> Z) (body : option Thrown).
Variables (o1 o2 : option Opener).

Local Abbreviation w1 := (mkWindow srch clk o1 body).
Local Abbreviation w2 := (mkWindow srch clk o2 body).

(** The [catch] block does the same from the same state whatever the
    opener is, apart from the messages it may send. *)
Lemma catch_block_opener err s :
  let r1 := catch_block getKey w1 err s in
  let r2 := catch_block getKey w2 err s in
  fst r1 = fst r2
  /\ localStorage (snd r1) = localStorage (snd r2)
  /\ without_messages (effects (snd r1))
     = without_messages (effects (snd r2)).
Proof.
  cbv zeta.
  destruct (storedStateData s) as [st|] eqn:Hst.
  - destruct (Js.truthy (StoredState.authSessionId st)) eqn:Hsession.
    + pose proof Hsession as (sid & Hsid & Hsid')%truthy_session.
      destruct (StoredState.providerOptions st) as [po|] eqn:Hpo.
      * erewrite !catch_block_publishes by done. effects_simpl.
        by repeat split.
      * erewrite !catch_block_faults by done. by repeat split.
    + rewrite !catch_block_quiet by (by rewrite Hst). effects_simpl.
      by repeat split.
  - rewrite !catch_block_quiet by (by rewrite Hst). effects_simpl.
    by repeat split.
Qed.

(** So does the whole handler. *)
Lemma run_opener storage :
  let r1 := run JSON_parse auth getKey w1 storage in
  let r2 := run JSON_parse auth getKey w2 storage in
  fst r1 = fst r2
  /\ localStorage (snd r1) = localStorage (snd r2)
  /\ without_messages (effects (snd r1))
     = without_messages (effects (snd r2)).
Proof.
  cbv zeta.
  pose proof (try_block_path JSON_parse auth w1 storage) as Hpath.
  remember (try_block JSON_parse auth w1 (initial storage)) as result eqn:Htry1.
  symmetry in Htry1.
  destruct Hpath
    as [ H1 | H1 H2 | H1 H2 H3 | key H1 H2 H3 H4
       | key text H1 H2 H3 H4 H5 H6 | key text H1 H2 H3 H4 H5 H6
       | key st Hf He | key st Hf He Hpo
       | key st po outcome storage' reason Hf He Hpo Hauth Hreason
       | key st po storage' Hf He Hpo Hauth ].
  - pose proof (try_denied JSON_parse auth w2 storage H1) as Htry2.
    rewrite (run_caught _ _ _ _ Htry1), (run_caught _ _ _ _ Htry2).
    apply catch_block_opener.
  - pose proof (try_missing_code JSON_parse auth w2 storage H1 H2)
      as Htry2.
    rewrite (run_caught _ _ _ _ Htry1), (run_caught _ _ _ _ Htry2).
    apply catch_block_opener.
  - pose proof (try_missing_state JSON_parse auth w2 storage H1 H2 H3)
      as Htry2.
    rewrite (run_caught _ _ _ _ Htry1), (run_caught _ _ _ _ Htry2).
    apply catch_block_opener.
  - pose proof (try_unknown_state JSON_parse auth w2 storage key
                  H1 H2 H3 H4) as Htry2.
    rewrite (run_caught _ _ _ _ Htry1), (run_caught _ _ _ _ Htry2).
    apply catch_block_opener.
  - pose proof (try_unparseable JSON_parse auth w2 storage key text
                  H1 H2 H3 H4 H5 H6) as Htry2.
    rewrite (run_caught _ _ _ _ Htry1), (run_caught _ _ _ _ Htry2).
    apply catch_block_opener.
  - pose proof (try_null JSON_parse auth w2 storage key text
                  H1 H2 H3 H4 H5 H6) as Htry2.
    rewrite (run_caught _ _ _ _ Htry1), (run_caught _ _ _ _ Htry2).
    apply catch_block_opener.
  - pose proof (try_expired JSON_parse auth w2 storage key st Hf He)
      as Htry2.
    rewrite (run_caught _ _ _ _ Htry1), (run_caught _ _ _ _ Htry2).
    apply catch_block_opener.
  - pose proof (try_missing_options JSON_parse auth w2 storage key st
                  Hf He Hpo) as Htry2.
    rewrite (run_caught _ _ _ _ Htry1), (run_caught _ _ _ _ Htry2).
    apply catch_block_opener.
  - pose proof (try_exchange_failed JSON_parse auth w2 storage key st Hf
                  po storage' He Hpo outcome reason Hauth Hreason)
      as Htry2.
    rewrite (run_caught _ _ _ _ Htry1), (run_caught _ _ _ _ Htry2).
    apply catch_block_opener.
  - pose proof (try_authorized JSON_parse auth w2 storage key st Hf
                  po storage' He Hpo Hauth) as Htry2.
    rewrite (run_completed _ _ _ _ Htry1), (run_completed _ _ _ _ Htry2).
    destruct (Js.truthy (StoredState.authSessionId st)); effects_simpl;
      by repeat split.
Qed.
End Openers.

(** A window that sends no message leaves no message among the
    effects. *)
Lemma catch_block_silent w err s :
  (forall ok e, messages w ok e = []) ->
  without_messages (effects s) = effects s ->
  without_messages (effects (snd (catch_block getKey w err s)))
  = effects (snd (catch_block getKey w err s)).
Proof.
  intros Hquiet Hs.
  destruct (storedStateData s) as [st|] eqn:Hst.
  - destruct (Js.truthy (StoredState.authSessionId st)) eqn:Hsession.
    + pose proof Hsession as (sid & Hsid & Hsid')%truthy_session.
      destruct (StoredState.providerOptions st) as [po|] eqn:Hpo.
      * erewrite catch_block_publishes by done.
        rewrite Hquiet. effects_simpl. by rewrite Hs.
      * by erewrite catch_block_faults by done.
    + rewrite catch_block_quiet by (by rewrite Hst).
      rewrite Hquiet. effects_simpl. by rewrite Hs.
  - rewrite catch_block_quiet by (by rewrite Hst).
    rewrite Hquiet. effects_simpl. by rewrite Hs.
Qed.

Lemma run_silent w storage :
  (forall ok e, messages w ok e = []) ->
  without_messages (effects (snd (run JSON_parse auth getKey w storage)))
  = effects (snd (run JSON_parse auth getKey w storage)).
Proof.
  intros Hquiet.
  pose proof (try_block_path JSON_parse auth w storage) as Hpath.
  remember (try_block JSON_parse auth w (initial storage)) as result eqn:Htry.
  symmetry in Htry.
  destruct Hpath;
    try (rewrite (run_caught _ _ _ _ Htry);
         by apply catch_block_silent).
  rewrite (run_completed _ _ _ _ Htry), Hquiet.
  by destruct (Js.truthy (StoredState.authSessionId st)).
Qed.

(** C7. An opener whose [postMessage] throws changes nothing but the
    message itself: with the same redirect, clock, page and storage, the
    handler ends the same way (the same success, failure or fault), leaves
    the same storage and publishes the same results as with an opener that
    takes the message, on every way through it; its effects are those of
    the other run without the message. *)
Theorem delivery_failure_is_ignored srch clk body storage isClosed fault :
  let broken :=
    mkWindow srch clk (Some (mkOpener isClosed (Some fault))) body in
  let working := mkWindow srch clk (Some (mkOpener isClosed None)) body in
  let rb := run JSON_parse auth getKey broken storage in
  let rw := run JSON_parse auth getKey working storage in
  fst rb = fst rw
  /\ localStorage (snd rb) = localStorage (snd rw)
  /\ published (effects (snd rb)) = published (effects (snd rw))
  /\ effects (snd rb) = without_messages (effects (snd rw)).
Proof.
  intros broken working rb rw.
  destruct (run_opener srch clk body
              (Some (mkOpener isClosed (Some fault)))
              (Some (mkOpener isClosed None)) storage)
    as (Hfst & Hstorage & Heffects).
  fold broken working rb rw in Hfst, Hstorage, Heffects.
  assert (Hsilent : without_messages (effects (snd rb)) = effects (snd rb)).
  { apply run_silent. intros ok e. unfold messages; cbn.
    by destruct isClosed. }
  split; [done|split; [done|split]].
  - by rewrite <- (published_without_messages (effects (snd rb))),
      Heffects, published_without_messages.
  - by rewrite <- Hsilent.
Qed.


End Claims.

(** ** The handler on every path *)

Create Rewrite HintDb paths_db.

Lemma only_messages_app es fs :
  only_messages (es ++ fs) = (only_messages es ++ only_messages fs)%list.
Proof.
  induction es as [|[] es IH]; cbn [only_messages app]; rewrite ?IH;
    reflexivity.
Qed.

Lemma only_pages_app es fs :
  only_pages (es ++ fs) = (only_pages es ++ only_pages fs)%list.
Proof.
  induction es as [|[] es IH]; cbn [only_pages app]; rewrite ?IH; reflexivity.
Qed.

Lemma without_pages_app es fs :
  without_pages (es ++ fs) = (without_pages es ++ without_pages fs)%list.
Proof.
  induction es as [|[] es IH]; cbn [without_pages app]; rewrite ?IH;
    reflexivity.
Qed.

Lemma closings_app es fs :
  closings (es ++ fs) = (closings es ++ closings fs)%list.
Proof.
  induction es as [|[] es IH]; cbn [closings app]; rewrite ?IH; reflexivity.
Qed.

Lemma messages_cases w ok err :
  messages w ok err = [] \/ messages w ok err = [PostMessage ok err].
Proof. unfold messages. destruct (opener w) as [[[] [|]]|]; auto. Qed.

Lemma shown_cases w m : shown w m = [] \/ shown w m = [ShowError m].
Proof. unfold shown. destruct (bodyFault w); auto. Qed.

Lemma only_messages_messages w ok err :
  only_messages (messages w ok err) = messages w ok err.
Proof. by destruct (messages_cases w ok err) as [-> | ->]. Qed.

Lemma only_pages_messages w ok err : only_pages (messages w ok err) = [].
Proof. by destruct (messages_cases w ok err) as [-> | ->]. Qed.

Lemma without_pages_messages w ok err :
  without_pages (messages w ok err) = messages w ok err.
Proof. by destruct (messages_cases w ok err) as [-> | ->]. Qed.

Lemma closings_messages w ok err : closings (messages w ok err) = [].
Proof. by destruct (messages_cases w ok err) as [-> | ->]. Qed.

Lemma only_messages_shown w m : only_messages (shown w m) = [].
Proof. by destruct (shown_cases w m) as [-> | ->]. Qed.

Lemma only_pages_shown w m : only_pages (shown w m) = shown w m.
Proof. by destruct (shown_cases w m) as [-> | ->]. Qed.

Lemma without_pages_shown w m : without_pages (shown w m) = [].
Proof. by destruct (shown_cases w m) as [-> | ->]. Qed.

Lemma closings_shown w m : closings (shown w m) = [].
Proof. by destruct (shown_cases w m) as [-> | ->]. Qed.

Lemma only_messages_removals keys : only_messages (map RemoveItem keys) = [].
Proof. induction keys; cbn; auto. Qed.

Lemma only_pages_removals keys : only_pages (map RemoveItem keys) = [].
Proof. induction keys; cbn; auto. Qed.

Lemma without_pages_removals keys :
  without_pages (map RemoveItem keys) = map RemoveItem keys.
Proof. induction keys; cbn; congruence. Qed.

Lemma closings_removals keys : closings (map RemoveItem keys) = [].
Proof. induction keys; cbn; auto. Qed.

#[local] Hint Rewrite published_app exchanges_app without_messages_app
  published_messages exchanges_messages without_messages_messages
  published_shown exchanges_shown without_messages_shown
  published_removals exchanges_removals without_messages_removals
  only_messages_app only_pages_app without_pages_app closings_app
  only_messages_messages only_pages_messages without_pages_messages
  closings_messages only_messages_shown only_pages_shown without_pages_shown
  closings_shown only_messages_removals only_pages_removals
  without_pages_removals closings_removals
  app_nil_r app_nil_l : paths_db.

Ltac paths_simpl :=
  repeat (progress
            (cbn [fst snd effects localStorage provider storedStateData
                  clockReads app hd_error exchanges published
                  without_messages only_messages only_pages without_pages
                  closings message_of new_Error];
             autorewrite with paths_db)).

(** The three behaviours of the [catch] block, by the state it starts in. *)
Lemma catch_block_cases getKey w err s :
  (match storedStateData s with
   | Some st => Js.truthy (StoredState.authSessionId st) = false
   | None => True
   end
   /\ catch_block getKey w err s
      = (inr (CompletedFailure (message_of err)),
         mkState
           (delete_all (cleanup_keys getKey w (provider s)) (localStorage s))
           (clockReads s) (provider s) (storedStateData s)
           (effects s ++ messages w false (Some (message_of err))
            ++ shown w (message_of err)
            ++ map RemoveItem (cleanup_keys getKey w (provider s)))))
  \/ (exists st po sid,
        storedStateData s = Some st
        /\ StoredState.authSessionId st = Some sid
        /\ Js.truthy_string sid = true
        /\ StoredState.providerOptions st = Some po
        /\ catch_block getKey w err s
           = (inr (CompletedFailure (message_of err)),
              mkState
                (delete_all (cleanup_keys getKey w (provider s))
                   (<[result_key po sid
                      := result_text false (Some (message_of err))
                           (clock w (clockReads s))
                           (clock w (S (clockReads s)))]>
                      (localStorage s)))
                (S (S (clockReads s))) (provider s) (storedStateData s)
                (effects s
                 ++ [SetItem (result_key po sid)
                       (result_text false (Some (message_of err))
                          (clock w (clockReads s))
                          (clock w (S (clockReads s))))]
                 ++ messages w false (Some (message_of err))
                 ++ shown w (message_of err)
                 ++ map RemoveItem (cleanup_keys getKey w (provider s)))))
  \/ (exists st,
        storedStateData s = Some st
        /\ Js.truthy (StoredState.authSessionId st) = true
        /\ StoredState.providerOptions st = None
        /\ catch_block getKey w err s
           = (inl (ErrorObject "TypeError"
                     "Cannot read properties of undefined (reading 'storageKeyPrefix')"),
              s)).
Proof.
  destruct (storedStateData s) as [st|] eqn:Hst.
  - destruct (Js.truthy (StoredState.authSessionId st)) eqn:Hsession.
    + pose proof Hsession as (sid & Hsid & Hsid')%truthy_session.
      destruct (StoredState.providerOptions st) as [po|] eqn:Hpo.
      * right; left. exists st, po, sid. repeat split; try done.
        erewrite catch_block_publishes by done. by rewrite Hst.
      * right; right. exists st. repeat split; try done.
        by erewrite catch_block_faults by done.
    + left. split; [done|].
      rewrite catch_block_quiet by (by rewrite Hst). by rewrite Hst.
  - left. split; [done|].
    rewrite catch_block_quiet by (by rewrite Hst). by rewrite Hst.
Qed.

Lemma delete_all_other keys (m : gmap string string) k :
  ~ In k keys -> delete_all keys m !! k = m !! k.
Proof.
  revert m. induction keys as [|k' keys IH]; intros m Hk; [reflexivity|].
  rewrite delete_all_cons, IH by (intros ?; apply Hk; by right).
  apply lookup_delete_ne. intros ->. apply Hk. by left.
Qed.

Lemma since_message_silent es :
  only_messages es = [] -> since_message es = [].
Proof. induction es as [|[] es IH]; cbn; auto; discriminate. Qed.

Lemma not_in_cleanup_keys getKey w p k :
  stateKey w <> Some k ->
  (forall p', p = Some p' ->
              k <> getKey p' "code_verifier"
              /\ k <> getKey p' "last_auth_url") ->
  ~ In k (cleanup_keys getKey w p).
Proof.
  intros Hstate Hprovider. unfold cleanup_keys.
  intros [Hin|Hin]%in_app_or.
  - destruct (stateKey w) as [k'|]; [|done].
    destruct Hin as [->|[]]. by apply Hstate.
  - destruct p as [p|]; [|done].
    destruct (Hprovider p eq_refl) as [H1 H2].
    destruct Hin as [<-|[<-|[]]]; [by apply H1|by apply H2].
Qed.

Lemma published_without_pages es :
  published (without_pages es) = published es.
Proof. induction es as [|[] es IH]; cbn; congruence. Qed.

Lemma append_injective (prefix a b : string) :
  prefix +:+ a = prefix +:+ b -> a = b.
Proof.
  induction prefix as [|c prefix IH]; cbn; [done|].
  intros H. injection H as H. by apply IH.
Qed.

Ltac catch_paths getKey w :=
  match goal with
  | |- context [catch_block getKey w ?e ?s] =>
      let Hc := fresh "Hcatch" in
      let Hst := fresh "Hst" in
      destruct (catch_block_cases getKey w e s)
        as [(? & Hc)
           |[(? & ? & ? & Hst & ? & ? & ? & Hc)|(? & Hst & ? & ? & Hc)]];
      rewrite Hc; clear Hc;
      try (cbn [storedStateData initial] in Hst;
           first [discriminate Hst | injection Hst as <-]);
      try (exfalso; congruence);
      try match goal with
        | Ha : StoredState.providerOptions ?st = Some ?a,
          Hb : StoredState.providerOptions ?st = Some ?b |- _ =>
            assert (b = a) as -> by congruence; clear Hb
        end
  end.

Ltac run_paths JSON_parse auth getKey w storage :=
  let Hpath := fresh "Hpath" in
  let Htry := fresh "Htry" in
  pose proof (try_block_path JSON_parse auth w storage) as Hpath;
  remember (try_block JSON_parse auth w (initial storage)) as result eqn:Htry;
  symmetry in Htry;
  destruct Hpath;
  first [ rewrite (run_caught JSON_parse auth getKey _ _ _ _ Htry);
          catch_paths getKey w
        | rewrite (run_completed JSON_parse auth getKey _ _ _ _ Htry);
          match goal with
          | |- context [if Js.truthy ?x then _ else _] =>
              destruct (Js.truthy x) eqn:?
          end ];
  clear Htry.

Section Paths.
Variable JSON_parse : string -> option (option StoredState.t).
Variable auth :
  BrowserOAuthClientProvider -> string -> string -> gmap string string ->
  (Thrown + string) * gmap string string.
Variable getKey : BrowserOAuthClientProvider -> string -> string.

(** X1. The opener hears exactly how the handler ended: one message with
    [success: true] after success, one with [success: false] and the
    failure reason after a failure, when it is reachable; nothing when the
    promise rejects. *)
Theorem opener_hears_the_terminal w storage :
  let r := run JSON_parse auth getKey w storage in
  only_messages (effects (snd r))
  = match fst r with
    | inr CompletedSuccess => messages w true None
    | inr (CompletedFailure reason) => messages w false (Some reason)
    | inl _ => []
    end.
Proof.
  intros r; subst r.
  run_paths JSON_parse auth getKey w storage; paths_simpl; try done.
Qed.

(** X2. The error page shows exactly the failure the handler ended in, when
    the document can be written; nothing is shown after success or when the
    promise rejects. *)
Theorem page_shows_the_terminal w storage :
  let r := run JSON_parse auth getKey w storage in
  only_pages (effects (snd r))
  = match fst r with
    | inr (CompletedFailure reason) => shown w reason
    | _ => []
    end.
Proof.
  intros r; subst r.
  run_paths JSON_parse auth getKey w storage; paths_simpl; done.
Qed.

(** X3. The window is scheduled to close, 100 ms later, exactly when the
    handler ends in success; after a failure it stays open. *)
Theorem window_closes_only_on_success w storage :
  let r := run JSON_parse auth getKey w storage in
  closings (effects (snd r))
  = match fst r with
    | inr CompletedSuccess => [100]
    | _ => []
    end.
Proof.
  intros r; subst r.
  run_paths JSON_parse auth getKey w storage; paths_simpl; done.
Qed.

(** X4. An invocation publishes at most one result, and the result agrees
    with how the handler ended: it is written under the result key of the
    loaded entry, from two consecutive clock readings, with [success: true]
    only when the handler ended in success and otherwise with
    [success: false] and the very reason of the failure. *)
Theorem published_result_matches_terminal w storage :
  let r := run JSON_parse auth getKey w storage in
  published (effects (snd r)) = []
  \/ exists st po sid n,
       storedStateData (snd r) = Some st
       /\ StoredState.providerOptions st = Some po
       /\ StoredState.authSessionId st = Some sid
       /\ Js.truthy_string sid = true
       /\ ((fst r = inr CompletedSuccess
            /\ published (effects (snd r))
               = [(result_key po sid,
                   result_text true None (clock w n) (clock w (S n)))])
           \/ exists reason,
                fst r = inr (CompletedFailure reason)
                /\ published (effects (snd r))
                   = [(result_key po sid,
                       result_text false (Some reason) (clock w n)
                         (clock w (S n)))]).
Proof.
  intros r; subst r.
  run_paths JSON_parse auth getKey w storage; paths_simpl;
    try (left; reflexivity);
    right;
    try match goal with
      | H : Js.truthy _ = true |- _ =>
          apply truthy_session in H as (? & ? & ?)
      end;
    do 4 eexists; (split; [reflexivity|]); (split; [eassumption|]);
    (split; [eassumption|]); (split; [eassumption|]).
  all: try (right; eexists; split; reflexivity).
  left. split; [reflexivity|].
  match goal with H : StoredState.authSessionId _ = _ |- _ => rewrite H end.
  reflexivity.
Qed.

(** X5. A code is exchanged at most once per invocation, and only for a
    redirect that passed the checks and whose state names a stored entry
    that is not expired and has provider options; it is the code of the
    redirect, sent to the server of the stored options. *)
Theorem exchange_needs_fresh_entry w storage :
  let r := run JSON_parse auth getKey w storage in
  exchanges (effects (snd r)) = []
  \/ exists key st po,
       finds JSON_parse w storage key st
       /\ expired (StoredState.expiry st) (clock w 0) = false
       /\ StoredState.providerOptions st = Some po
       /\ exchanges (effects (snd r))
          = [(ProviderOptions.serverUrl po, Js.template (code w))].
Proof.
  intros r; subst r.
  run_paths JSON_parse auth getKey w storage; paths_simpl;
    try (left; reflexivity);
    try congruence;
    right; do 3 eexists;
    (split; [eassumption|]); (split; [eassumption|]);
    (split; [eassumption|reflexivity]).
Qed.

(** X6. The handler ends in success only after an exchange that answered
    [AUTHORIZED], for a stored entry that is not expired and has provider
    options; the entry is gone afterwards. *)
Theorem success_needs_authorized_exchange w storage :
  fst (run JSON_parse auth getKey w storage) = inr CompletedSuccess ->
  exists key st po storage',
    finds JSON_parse w storage key st
    /\ expired (StoredState.expiry st) (clock w 0) = false
    /\ StoredState.providerOptions st = Some po
    /\ auth (new_BrowserOAuthClientProvider (ProviderOptions.serverUrl po) po)
         (ProviderOptions.serverUrl po) (Js.template (code w)) storage
       = (inr "AUTHORIZED", storage')
    /\ localStorage (snd (run JSON_parse auth getKey w storage)) !! key
       = None.
Proof.
  run_paths JSON_parse auth getKey w storage; paths_simpl;
    try discriminate;
    intros _; do 4 eexists;
    (split; [eassumption|]); (split; [eassumption|]);
    (split; [eassumption|]); (split; [eassumption|]);
    apply lookup_delete_eq.
Qed.


(** X8. The handler touches only its own keys: a key that is not the state
    key of the redirect, not the key a result was published under, and not
    the code-verifier or last-authorization-URL key of the provider it built
    holds at the end what it held when the exchange was over (or at the
    start, when no exchange was attempted). *)
Theorem handler_touches_only_its_keys w storage k :
  let r := run JSON_parse auth getKey w storage in
  stateKey w <> Some k ->
  (forall text, ~ In (k, text) (published (effects (snd r)))) ->
  (forall p, provider (snd r) = Some p ->
             k <> getKey p "code_verifier" /\ k <> getKey p "last_auth_url") ->
  localStorage (snd r) !! k = exchanged_storage auth storage (snd r) !! k.
Proof.
  intros r; subst r.
  run_paths JSON_parse auth getKey w storage; paths_simpl;
    cbn [initial provider localStorage effects];
    intros Hstate Hresult Hprovider;
    unfold exchanged_storage;
    cbn [provider effects exchanges app];
    try match goal with
      | H : finds _ _ _ ?key _ |- _ =>
          let Hk := fresh "Hk" in
          pose proof H as (_ & _ & Hk & _);
          assert (key <> k) by (intros ->; by apply Hstate)
      end;
    try match goal with
      | H : auth _ _ _ _ = _ |- _ => rewrite H; cbn [snd]
      end;
    rewrite ?delete_all_other by (by apply not_in_cleanup_keys);
    repeat first
      [ rewrite lookup_delete_ne by done
      | rewrite lookup_insert_ne
          by (intros <-; eapply Hresult; left; reflexivity) ];
    reflexivity.
Qed.

(** X9. A redirect whose state names no stored entry (or an empty one)
    fails with the unknown-state reason before anything is parsed or
    exchanged: nothing is published, the reason goes to the opener and the
    page, and the only storage operation is the removal of that state key,
    so a storage without the key is left exactly as it was. *)
Theorem unknown_state_leaves_storage_alone w storage key :
  Js.truthy (error w) = false -> Js.truthy (code w) = true ->
  stateKey w = Some key -> Js.truthy (storage !! key) = false ->
  let reason := Reason.unknown_state (state w) in
  let r := run JSON_parse auth getKey w storage in
  fst r = inr (CompletedFailure reason)
  /\ effects (snd r)
     = (messages w false (Some reason) ++ shown w reason
        ++ [RemoveItem key])%list
  /\ localStorage (snd r) = delete key storage
  /\ (storage !! key = None -> localStorage (snd r) = storage).
Proof.
  intros H1 H2 H3 H4 reason r; subst r reason.
  rewrite (run_early_failure _ _ _ _ _ _
             (try_unknown_state _ _ _ _ _ H1 H2 H3 H4)).
  unfold cleanup_keys; rewrite H3. paths_simpl.
  repeat split; try done. apply delete_id.
Qed.

(** X10. A stored entry without provider options (and without a session
    id) fails the attempt before any provider is built: no code is
    exchanged, nothing is published, and the cleanup removes the state entry
    and nothing else. *)
Theorem missing_options_stop_before_exchange w storage key st :
  finds JSON_parse w storage key st ->
  expired (StoredState.expiry st) (clock w 0) = false ->
  StoredState.providerOptions st = None ->
  Js.truthy (StoredState.authSessionId st) = false ->
  let r := run JSON_parse auth getKey w storage in
  fst r = inr (CompletedFailure Reason.missing_options)
  /\ exchanges (effects (snd r)) = []
  /\ published (effects (snd r)) = []
  /\ provider (snd r) = None
  /\ localStorage (snd r) = delete key storage.
Proof.
  intros Hfinds Hfresh Hpo Hsession r; subst r.
  pose proof Hfinds as (_ & _ & Hkey & _).
  rewrite (run_caught _ _ _ _ _ _ _
             (try_missing_options _ _ _ _ _ _ Hfinds Hfresh Hpo)).
  rewrite catch_block_quiet by (cbn; done).
  unfold cleanup_keys; rewrite Hkey. paths_simpl. by repeat split.
Qed.

(** X11. A stored entry that is the JSON document [null] is survived: the
    property read of line 48 throws inside the [try] block, the handler
    returns a failure, publishes and exchanges nothing, and removes the
    entry. *)
Theorem null_entry_is_survived w storage key text :
  Js.truthy (error w) = false -> Js.truthy (code w) = true ->
  stateKey w = Some key -> storage !! key = Some text ->
  Js.truthy_string text = true -> JSON_parse text = Some None ->
  let r := run JSON_parse auth getKey w storage in
  (exists reason, fst r = inr (CompletedFailure reason))
  /\ published (effects (snd r)) = []
  /\ exchanges (effects (snd r)) = []
  /\ localStorage (snd r) = delete key storage.
Proof.
  intros H1 H2 H3 H4 H5 H6 r; subst r.
  rewrite (run_early_failure _ _ _ _ _ _
             (try_null _ _ _ _ _ _ H1 H2 H3 H4 H5 H6)).
  unfold cleanup_keys; rewrite H3. paths_simpl.
  repeat split; try done. by eexists.
Qed.

(** X12. An expired entry that names a session and has provider options
    gets its failure published: one result with [success: false] and the
    expired-state reason, written after the entry was removed and without
    any exchange.  An entry whose [expiry] is absent or zero counts as
    expired without the clock being read for the test, so the result then
    carries the first two readings. *)
Theorem expired_entry_with_session_is_published w storage key st po sid :
  finds JSON_parse w storage key st ->
  expired (StoredState.expiry st) (clock w 0) = true ->
  StoredState.providerOptions st = Some po ->
  StoredState.authSessionId st = Some sid -> Js.truthy_string sid = true ->
  let n := expiry_reads (StoredState.expiry st) in
  let text :=
    result_text false (Some Reason.expired_state) (clock w n)
      (clock w (S n)) in
  let r := run JSON_parse auth getKey w storage in
  fst r = inr (CompletedFailure Reason.expired_state)
  /\ exchanges (effects (snd r)) = []
  /\ effects (snd r)
     = ([RemoveItem key; SetItem (result_key po sid) text]
        ++ messages w false (Some Reason.expired_state)
        ++ shown w Reason.expired_state ++ [RemoveItem key])%list
  /\ localStorage (snd r) = delete key (<[result_key po sid := text]> storage)
  /\ (StoredState.expiry st = None \/ StoredState.expiry st = Some 0 ->
      n = 0%nat).
Proof.
  intros Hfinds Hexp Hpo Hsid Hsid' n text r; subst r text n.
  pose proof Hfinds as (_ & _ & Hkey & _).
  rewrite (run_caught _ _ _ _ _ _ _
             (try_expired _ _ _ _ _ _ Hfinds Hexp)).
  erewrite catch_block_publishes by done.
  unfold cleanup_keys; rewrite Hkey. paths_simpl.
  unfold delete_all; cbn [fold_left app].
  split; [done|split; [done|split; [done|split]]].
  - apply map_eq. intros k.
    destruct (decide (k = key)) as [->|Hk].
    + by rewrite !lookup_delete_eq.
    + rewrite !lookup_delete_ne by done.
      destruct (decide (k = result_key po sid)) as [->|Hr].
      * by rewrite !lookup_insert_eq.
      * by rewrite !lookup_insert_ne, lookup_delete_ne by done.
  - intros [-> | ->]; reflexivity.
Qed.

(** X13. The success path in order: the exchange, the result written,
    the message to the opener, the close scheduled, and only then the
    state entry removed.  The handler removes nothing else: whatever the
    exchange stored is still there. *)
Theorem authorized_flow_in_order w storage key st po sid storage' :
  finds JSON_parse w storage key st ->
  expired (StoredState.expiry st) (clock w 0) = false ->
  StoredState.providerOptions st = Some po ->
  StoredState.authSessionId st = Some sid -> Js.truthy_string sid = true ->
  auth (new_BrowserOAuthClientProvider (ProviderOptions.serverUrl po) po)
    (ProviderOptions.serverUrl po) (Js.template (code w)) storage
  = (inr "AUTHORIZED", storage') ->
  let text := result_text true None (clock w 1) (clock w 2) in
  let r := run JSON_parse auth getKey w storage in
  effects (snd r)
  = ([Exchange (ProviderOptions.serverUrl po) (Js.template (code w));
      SetItem (result_key po sid) text]
     ++ messages w true None ++ [CloseAfter 100; RemoveItem key])%list
  /\ localStorage (snd r) = delete key (<[result_key po sid := text]> storage')
  /\ clockReads (snd r) = 3%nat.
Proof.
  intros Hfinds Hfresh Hpo Hsid Hsid' Hauth text r; subst r text.
  rewrite (run_completed _ _ _ _ _ _ _
             (try_authorized _ _ _ _ _ _ Hfinds _ _ Hfresh Hpo Hauth)).
  rewrite Hsid; cbn [Js.truthy Js.template]; rewrite Hsid'.
  by paths_simpl.
Qed.

(** X14. Nothing is published after the opener was told: on every path
    the result, if any, is already written when the message is sent. *)
Theorem nothing_published_after_the_message w storage :
  published
    (since_message (effects (snd (run JSON_parse auth getKey w storage))))
  = [].
Proof.
  run_paths JSON_parse auth getKey w storage;
    cbn [snd effects initial app];
    match goal with
    | |- context [messages w ?ok ?e] =>
        destruct (messages_cases w ok e) as [-> | ->]
    | |- _ => idtac
    end;
    cbn [app since_message];
    first [ by autorewrite with paths_db
          | rewrite since_message_silent; [reflexivity|];
            paths_simpl; reflexivity ].
Qed.

(** X15. Distinct states never share a storage key: the state key
    determines the state of the redirect. *)
Theorem state_key_determines_state w1 w2 key :
  stateKey w1 = Some key -> stateKey w2 = Some key -> state w1 = state w2.
Proof.
  unfold stateKey.
  destruct (state w1) as [s1|], (state w2) as [s2|]; cbn [Js.truthy];
    try discriminate;
    destruct (Js.truthy_string s1), (Js.truthy_string s2);
    try discriminate.
  intros [= <-] [= H%append_injective]. by rewrite H.
Qed.
End Paths.

Section Pages.
Variable JSON_parse : string -> option (option StoredState.t).
Variable auth :
  BrowserOAuthClientProvider -> string -> string -> gmap string string ->
  (Thrown + string) * gmap string string.
Variable getKey : BrowserOAuthClientProvider -> string -> string.

(** The [try] block never looks at the document. *)
Lemma try_block_ignores_the_page srch clk o b1 b2 s :
  try_block JSON_parse auth (mkWindow srch clk o b1) s
  = try_block JSON_parse auth (mkWindow srch clk o b2) s.
Proof. reflexivity. Qed.

(** X16. A document that cannot be written changes nothing but the page
    itself: with the same redirect, clock, opener and storage, the handler
    ends the same way, leaves the same storage, publishes the same results
    and sends the same messages as with a document that takes the error
    page; its effects are those of the other run without the page. *)
Theorem display_failure_is_ignored srch clk o storage fault :
  let broken := mkWindow srch clk o (Some fault) in
  let working := mkWindow srch clk o None in
  let rb := run JSON_parse auth getKey broken storage in
  let rw := run JSON_parse auth getKey working storage in
  fst rb = fst rw
  /\ localStorage (snd rb) = localStorage (snd rw)
  /\ published (effects (snd rb)) = published (effects (snd rw))
  /\ only_messages (effects (snd rb)) = only_messages (effects (snd rw))
  /\ effects (snd rb) = without_pages (effects (snd rw)).
Proof.
  intros broken working rb rw; subst rb rw.
  assert (Hsame : forall s,
             try_block JSON_parse auth broken s
             = try_block JSON_parse auth working s)
    by (intros s; apply try_block_ignores_the_page).
  assert (Hmessages : forall ok e, messages broken ok e = messages working ok e)
    by reflexivity.
  assert (Hshown : forall reason, shown broken reason = []) by reflexivity.
  pose proof (try_block_path JSON_parse auth working storage) as Hpath.
  remember (try_block JSON_parse auth working (initial storage))
    as result eqn:Htry.
  symmetry in Htry.
  pose proof Htry as Htry'. rewrite <- Hsame in Htry'.
  destruct Hpath;
    first
      [ rewrite (run_caught JSON_parse auth getKey _ _ _ _ Htry),
          (run_caught JSON_parse auth getKey _ _ _ _ Htry');
        catch_paths getKey broken; catch_paths getKey working
      | rewrite (run_completed JSON_parse auth getKey _ _ _ _ Htry),
          (run_completed JSON_parse auth getKey _ _ _ _ Htry');
        destruct (Js.truthy (StoredState.authSessionId st)) ];
    try (exfalso; cbn [storedStateData] in *;
         first
           [ congruence
           | match goal with
             | H : Js.truthy (StoredState.authSessionId ?st) = false,
               H' : StoredState.authSessionId ?st = Some _ |- _ =>
                 rewrite H' in H; cbn [Js.truthy] in H; congruence
             end ]);
    rewrite ?Hshown, ?Hmessages; paths_simpl;
    rewrite ?published_without_pages;
    repeat match goal with
      | Ha : StoredState.authSessionId ?st = Some ?a,
        Hb : StoredState.authSessionId ?st = Some ?b |- _ =>
          assert (b = a) as -> by congruence; clear Hb
      end;
    by repeat split.
Qed.
End Pages.

(** ** The scenarios, run on the reference platform *)

Import Reference.

Ltac by_computation := vm_compute; reflexivity.

Ltac finds_by_computation text :=
  unfold finds; repeat split; try by_computation;
  exists text; repeat split; by_computation.

Example search_params_scenario :
  let q := URLSearchParams.make
             "?error=access_denied&error_description=User+declined&state=s1" in
  (URLSearchParams.get q "error", URLSearchParams.get q "error_description",
   URLSearchParams.get q "state", URLSearchParams.get q "code")
  = (Some "access_denied", Some "User declined", Some "s1", None).
Proof. reflexivity. Qed.

Example search_params_escapes :
  let q := URLSearchParams.make "a=1&&b=x%3Dy%2&b=2&c" in
  (URLSearchParams.get q "b", URLSearchParams.get q "c",
   URLSearchParams.get q "d")
  = (Some "x=y%2", Some EmptyString, None).
Proof. reflexivity. Qed.

Example pending_s1_parses : JSON_parse pending_s1 = Some (Some state_s1).
Proof. by_computation. Qed.

Example result_text_sample :
  result_text false (Some "invalid_grant") 1700000000400 1700000000401
  = json ("{'success':false,'error':'invalid_grant',"
          +:+ "'timestamp':1700000000400,'expiry':1700000300401}").
Proof. by_computation. Qed.

(** The success scenario of the specification, with a clock that stands
    still: the result [{success: true, timestamp: t, expiry: t + 300000}]
    is published under [sess1], the tokens the exchange saved remain, and the
    entry [s1] is gone. *)
Example success_scenario :
  let r := run_ok (popup "?code=abc&state=s1" (still 1700000000000))
             (storage_s1 pending_s1) in
  fst r = inr CompletedSuccess
  /\ effects (snd r)
     = [Exchange "https://mcp.example/sse" "abc";
        SetItem "mcp:auth:auth_result_sess1"
          (json ("{'success':true,'timestamp':1700000000000,"
                 +:+ "'expiry':1700000300000}"));
        PostMessage true None; CloseAfter 100;
        RemoveItem "mcp:auth:state_s1"]
  /\ localStorage (snd r) !! "mcp:auth:state_s1" = None
  /\ localStorage (snd r) !! "mcp:auth:auth_result_sess1"
     = Some (json ("{'success':true,'timestamp':1700000000000,"
                   +:+ "'expiry':1700000300000}")).
Proof. cbv zeta. repeat split; by_computation. Qed.

(** The third scenario of the specification: an unknown state publishes
    nothing and shows the unknown-state reason. *)
Example unknown_state_scenario :
  let r := run_ok (window "?code=abc&state=unknown" (still 1700000000000))
             (storage_s1 pending_s1) in
  fst r = inr (CompletedFailure (Reason.unknown_state (Some "unknown")))
  /\ effects (snd r)
     = [ShowError (Reason.unknown_state (Some "unknown"));
        RemoveItem "mcp:auth:state_unknown"]
  /\ localStorage (snd r) = storage_s1 pending_s1.
Proof. cbv zeta. repeat split; by_computation. Qed.

(** The three checks on three redirects: [error] with everything else
    present, no [code], no [state]. *)
Lemma validation_order_witness :
  let denied := window "?error=access_denied&code=abc&state=s1" (still 0) in
  let no_code := window "?state=s1" (still 0) in
  let no_state := window "?code=abc" (still 0) in
  let storage := storage_s1 pending_s1 in
  (Js.truthy (error denied) = true
   /\ fst (run_ok denied storage)
      = inr (CompletedFailure
               (Reason.authorization_denied (error denied)
                  (errorDescription denied))))
  /\ (Js.truthy (error no_code) = false /\ Js.truthy (code no_code) = false
      /\ fst (run_ok no_code storage)
         = inr (CompletedFailure Reason.missing_code))
  /\ (Js.truthy (error no_state) = false /\ Js.truthy (code no_state) = true
      /\ Js.truthy (state no_state) = false
      /\ fst (run_ok no_state storage)
         = inr (CompletedFailure Reason.missing_state)).
Proof.
  intros denied no_code no_state storage.
  split; [split|split; [split; [|split]|split; [|split; [|split]]]].
  - by_computation.
  - apply (proj1 (validation_order JSON_parse auth_ok getKey denied storage)).
    by_computation.
  - by_computation.
  - by_computation.
  - apply (proj1 (proj2 (validation_order JSON_parse auth_ok getKey no_code
                           storage))); by_computation.
  - by_computation.
  - by_computation.
  - by_computation.
  - apply (proj1 (proj2 (proj2 (validation_order JSON_parse auth_ok getKey
                                  no_state storage)))); by_computation.
Defined.

(** C1 as the specification states it fails on its own scenario: the pending
    entry matches and names session [sess1], the reason is the one expected,
    and yet no result is written to storage; the reason only reaches the
    opener's message and the page. *)
Lemma denied_redirect_publishes_no_outcome :
  let w :=
    popup "?error=access_denied&error_description=User+declined&state=s1"
      (still 1700000000000) in
  let r := run_ok w (storage_s1 pending_s1) in
  (storage_s1 pending_s1 !! "mcp:auth:state_s1" ≫= JSON_parse)
  = Some (Some state_s1)
  /\ StoredState.authSessionId state_s1 = Some "sess1"
  /\ fst r
     = inr (CompletedFailure "OAuth error: access_denied - User declined")
  /\ published (effects (snd r)) = []
  /\ effects (snd r)
     = [PostMessage false
          (Some "OAuth error: access_denied - User declined");
        ShowError "OAuth error: access_denied - User declined";
        RemoveItem "mcp:auth:state_s1"]
  /\ localStorage (snd r) = ∅.
Proof. cbv zeta. repeat split; by_computation. Qed.

(** The denial scenario, with the reason the specification expects. *)
Lemma denied_redirect_is_reported_unpublished_witness :
  let w :=
    popup "?error=access_denied&error_description=User+declined&state=s1"
      (still 1700000000000) in
  let storage := storage_s1 pending_s1 in
  Js.truthy (error w) = true
  /\ Reason.authorization_denied (error w) (errorDescription w)
     = "OAuth error: access_denied - User declined"
  /\ (let reason :=
        Reason.authorization_denied (error w) (errorDescription w) in
      let r := run JSON_parse auth_ok getKey w storage in
      fst r = inr (CompletedFailure reason)
      /\ exchanges (effects (snd r)) = []
      /\ published (effects (snd r)) = []
      /\ effects (snd r)
         = (messages w false (Some reason) ++ shown w reason
            ++ map RemoveItem (cleanup_keys getKey w None))%list
      /\ localStorage (snd r)
         = delete_all (cleanup_keys getKey w None) storage).
Proof.
  intros w storage. split; [by_computation|split; [by_computation|]].
  apply (denied_redirect_is_reported_unpublished JSON_parse auth_ok getKey
           w storage).
  by_computation.
Defined.

(** C2 as the specification states it fails at [expiry = now]: line 48 tests
    [expiry < Date.now()], so the entry is still accepted, the code is
    exchanged and the attempt succeeds. *)
Lemma entry_expiring_now_is_accepted :
  let w := window "?code=abc&state=s1" (still 1700000300000) in
  let r := run_ok w (storage_s1 pending_s1) in
  JSON_parse pending_s1 = Some (Some state_s1)
  /\ StoredState.expiry state_s1 = Some (clock w 0)
  /\ fst r = inr CompletedSuccess
  /\ exchanges (effects (snd r)) = [("https://mcp.example/sse", "abc")].
Proof. cbv zeta. repeat split; by_computation. Qed.

(** The entry of the scenarios read one millisecond after its expiry. *)
Lemma expired_entry_is_collected_witness :
  let w := window "?code=abc&state=s1" (still 1700000300001) in
  let storage := storage_s1 pending_s1 in
  finds JSON_parse w storage "mcp:auth:state_s1" state_s1
  /\ StoredState.expiry state_s1 = Some 1700000300000
  /\ 1700000300000 < clock w 0
  /\ (let r := run JSON_parse auth_ok getKey w storage in
      localStorage (snd r) !! "mcp:auth:state_s1" = None
      /\ hd_error (effects (snd r)) = Some (RemoveItem "mcp:auth:state_s1")
      /\ exchanges (effects (snd r)) = []
      /\ ((Js.truthy (StoredState.authSessionId state_s1) = true ->
           StoredState.providerOptions state_s1 <> None) ->
          fst r = inr (CompletedFailure Reason.expired_state))).
Proof.
  intros w storage.
  assert (Hfinds : finds JSON_parse w storage "mcp:auth:state_s1" state_s1)
    by finds_by_computation pending_s1.
  split; [exact Hfinds|split; [reflexivity|split; [by_computation|]]].
  apply (expired_entry_is_collected JSON_parse auth_ok getKey w storage
           "mcp:auth:state_s1" state_s1 1700000300000 Hfinds);
    by_computation.
Defined.

(** C3 as the specification states it fails when the clock ticks between
    the two [Date.now()] calls of the object literal: the result is published
    under [sess1] and the entry is consumed, but the [expiry] written is
    300001 ms after the [timestamp] written. *)
Lemma result_expiry_is_read_separately :
  let w := window "?code=abc&state=s1" drifting in
  let r := run_ok w (storage_s1 pending_s1) in
  fst r = inr CompletedSuccess
  /\ (exists text,
        published (effects (snd r)) = [("mcp:auth:auth_result_sess1", text)]
        /\ JSON.parse text
           = Some (JSON.Obj [("success", JSON.Bool true);
                             ("timestamp", JSON.Num 1700000000400);
                             ("expiry", JSON.Num 1700000300401)]))
  /\ 1700000300401 <> 1700000000400 + 300000.
Proof.
  cbv zeta. split; [by_computation|split; [|done]].
  eexists; split; by_computation.
Qed.

(** The success scenario with a clock that stands still. *)
Lemma authorized_flow_publishes_success_witness :
  let w := window "?code=abc&state=s1" (still 1700000000000) in
  let storage := storage_s1 pending_s1 in
  let storage' :=
    <[getKey provider_s1 "tokens" := "{}"]>
      (delete (getKey provider_s1 "code_verifier") storage) in
  finds JSON_parse w storage "mcp:auth:state_s1" state_s1
  /\ expired (StoredState.expiry state_s1) (clock w 0) = false
  /\ StoredState.providerOptions state_s1 = Some options_s1
  /\ StoredState.authSessionId state_s1 = Some "sess1"
  /\ Js.truthy_string "sess1" = true
  /\ auth_ok provider_s1 (ProviderOptions.serverUrl options_s1)
       (Js.template (code w)) storage
     = (inr "AUTHORIZED", storage')
  /\ (let r := run JSON_parse auth_ok getKey w storage in
      fst r = inr CompletedSuccess
      /\ published (effects (snd r))
         = [(result_key options_s1 "sess1",
             AuthResult.JSON_stringify
               (AuthResult.mk true None (clock w 1) (clock w 2 + 300000)))]
      /\ localStorage (snd r) !! "mcp:auth:state_s1" = None
      /\ (result_key options_s1 "sess1" <> "mcp:auth:state_s1" ->
          localStorage (snd r) !! result_key options_s1 "sess1"
          = Some (AuthResult.JSON_stringify
                    (AuthResult.mk true None (clock w 1)
                       (clock w 2 + 300000))))
      /\ (forall t, clock w 1 = t -> clock w 2 = t ->
          published (effects (snd r))
          = [(result_key options_s1 "sess1",
              AuthResult.JSON_stringify
                (AuthResult.mk true None t (t + 300000)))])).
Proof.
  intros w storage storage'.
  assert (Hfinds : finds JSON_parse w storage "mcp:auth:state_s1" state_s1)
    by finds_by_computation pending_s1.
  split; [exact Hfinds|].
  split; [by_computation|]. split; [reflexivity|]. split; [reflexivity|].
  split; [reflexivity|]. split; [reflexivity|].
  apply (authorized_flow_publishes_success JSON_parse auth_ok getKey w
           storage "mcp:auth:state_s1" state_s1 options_s1 "sess1" storage'
           Hfinds);
    reflexivity.
Defined.

(** C4 as the specification states it fails when the repeated redirect
    carries [error]: the second invocation never looks the entry up and
    fails, like the first, with the provider's error, not with the
    unknown-or-expired-state reason. *)
Lemma repeated_denial_keeps_its_reason :
  let w := window "?error=access_denied&state=s1" (still 1700000000000) in
  let r1 := run_ok w (storage_s1 pending_s1) in
  let r2 := run_ok w (localStorage (snd r1)) in
  state w = Some "s1"
  /\ fst r1
     = inr (CompletedFailure
              "OAuth error: access_denied - No description provided.")
  /\ fst r2
     = inr (CompletedFailure
              "OAuth error: access_denied - No description provided.")
  /\ fst r2 <> inr (CompletedFailure (Reason.unknown_state (state w))).
Proof.
  cbv zeta. split; [by_computation|split; [by_computation|]].
  split; [by_computation|]. by vm_compute.
Qed.

(** The success redirect delivered twice. *)
Lemma state_is_consumed_once_witness :
  let w := window "?code=abc&state=s1" (still 1700000000000) in
  let storage := storage_s1 pending_s1 in
  stateKey w = Some "mcp:auth:state_s1"
  /\ state w = state w
  /\ fst (run JSON_parse auth_ok getKey w storage) = inr CompletedSuccess
  /\ (let r1 := run JSON_parse auth_ok getKey w storage in
      let r2 := run JSON_parse auth_ok getKey w (localStorage (snd r1)) in
      localStorage (snd r1) !! "mcp:auth:state_s1" = None
      /\ exchanges (effects (snd r2)) = []
      /\ (exists reason, fst r2 = inr (CompletedFailure reason))
      /\ (Js.truthy (error w) = false -> Js.truthy (code w) = true ->
          fst r2 = inr (CompletedFailure (Reason.unknown_state (state w))))).
Proof.
  intros w storage.
  split; [by_computation|]. split; [reflexivity|].
  split; [by_computation|].
  apply (state_is_consumed_once JSON_parse auth_ok getKey w w storage
           "mcp:auth:state_s1" CompletedSuccess);
    by_computation.
Defined.

(** An exchange refused with [invalid_grant], with a verifier and a last
    authorization URL still in storage. *)
Lemma failed_exchange_is_reported_and_cleaned_witness :
  let w := window "?code=abc&state=s1" (still 1700000000000) in
  let storage :=
    <[getKey provider_s1 "code_verifier" := "dBjftJeZ4CVP"]>
      (<[getKey provider_s1 "last_auth_url" := "https://as.example/authorize"]>
         (storage_s1 pending_s1)) in
  finds JSON_parse w storage "mcp:auth:state_s1" state_s1
  /\ expired (StoredState.expiry state_s1) (clock w 0) = false
  /\ StoredState.providerOptions state_s1 = Some options_s1
  /\ auth_rejects provider_s1 (ProviderOptions.serverUrl options_s1)
       (Js.template (code w)) storage
     = (inl (new_Error "invalid_grant"), storage)
  /\ exchange_failure (inl (new_Error "invalid_grant")) = Some "invalid_grant"
  /\ (let r := run JSON_parse auth_rejects getKey w storage in
      fst r = inr (CompletedFailure "invalid_grant")
      /\ published (effects (snd r))
         = (if Js.truthy (StoredState.authSessionId state_s1)
            then [(result_key options_s1
                     (Js.template (StoredState.authSessionId state_s1)),
                   AuthResult.JSON_stringify
                     (AuthResult.mk false (Some "invalid_grant") (clock w 1)
                        (clock w 2 + 300000)))]
            else [])
      /\ localStorage (snd r) !! "mcp:auth:state_s1" = None
      /\ localStorage (snd r) !! getKey provider_s1 "code_verifier" = None
      /\ localStorage (snd r) !! getKey provider_s1 "last_auth_url" = None).
Proof.
  intros w storage.
  assert (Hfinds : finds JSON_parse w storage "mcp:auth:state_s1" state_s1)
    by finds_by_computation pending_s1.
  split; [exact Hfinds|].
  split; [by_computation|]. split; [reflexivity|]. split; [reflexivity|].
  split; [reflexivity|].
  apply (failed_exchange_is_reported_and_cleaned JSON_parse auth_rejects
           getKey w storage "mcp:auth:state_s1" state_s1 options_s1
           (inl (new_Error "invalid_grant")) storage "invalid_grant" Hfinds);
    reflexivity.
Defined.

(** An exchange that answers [REDIRECT] fails the attempt with the status in
    the reason, published for [sess1]. *)
Example unexpected_status_scenario :
  let r := run_redirects (window "?code=abc&state=s1" (still 1700000000000))
             (storage_s1 pending_s1) in
  fst r
  = inr (CompletedFailure
           "Unexpected result from authentication library: REDIRECT")
  /\ published (effects (snd r))
     = [("mcp:auth:auth_result_sess1",
         json ("{'success':false,'error':'Unexpected result from "
               +:+ "authentication library: REDIRECT',"
               +:+ "'timestamp':1700000000000,'expiry':1700000300000}"))]
  /\ localStorage (snd r) !! "mcp:auth:state_s1" = None.
Proof. cbv zeta. repeat split; by_computation. Qed.

(** The entry without a session, in a popup whose opener is alive. *)
Lemma missing_session_publishes_nothing_witness :
  let w := popup "?code=abc&state=s1" (still 1700000000000) in
  let storage := storage_s1 pending_no_session in
  let st := StoredState.mk (Some 1700000300000) (Some "9f2c") None
              (Some options_s1) in
  stateKey w = Some "mcp:auth:state_s1"
  /\ storage !! "mcp:auth:state_s1" = Some pending_no_session
  /\ JSON_parse pending_no_session = Some (Some st)
  /\ Js.truthy (StoredState.authSessionId st) = false
  /\ (let r := run JSON_parse auth_ok getKey w storage in
      published (effects (snd r)) = []
      /\ (exists t, fst r = inr t)
      /\ (forall po storage',
            finds JSON_parse w storage "mcp:auth:state_s1" st ->
            expired (StoredState.expiry st) (clock w 0) = false ->
            StoredState.providerOptions st = Some po ->
            auth_ok (new_BrowserOAuthClientProvider
                       (ProviderOptions.serverUrl po) po)
              (ProviderOptions.serverUrl po) (Js.template (code w)) storage
            = (inr "AUTHORIZED", storage') ->
            fst r = inr CompletedSuccess
            /\ effects (snd r)
               = ([Exchange (ProviderOptions.serverUrl po)
                     (Js.template (code w))]
                  ++ messages w true None
                  ++ [CloseAfter 100; RemoveItem "mcp:auth:state_s1"])%list
            /\ localStorage (snd r) = delete "mcp:auth:state_s1" storage')).
Proof.
  intros w storage st.
  split; [by_computation|]. split; [by_computation|].
  split; [by_computation|]. split; [reflexivity|].
  apply (missing_session_publishes_nothing JSON_parse auth_ok getKey w
           storage "mcp:auth:state_s1" pending_no_session st);
    by_computation.
Defined.

(** The flow without a session, run: success, a message to the opener, no
    write to storage. *)
Example no_session_scenario :
  let r := run_ok (popup "?code=abc&state=s1" (still 1700000000000))
             (storage_s1 pending_no_session) in
  fst r = inr CompletedSuccess
  /\ effects (snd r)
     = [Exchange "https://mcp.example/sse" "abc"; PostMessage true None;
        CloseAfter 100; RemoveItem "mcp:auth:state_s1"]
  /\ localStorage (snd r) !! "mcp:auth:state_s1" = None.
Proof. cbv zeta. repeat split; by_computation. Qed.

(** C9, at the input where the code breaks it.  The pending entry names a
    session and has no provider options.  Line 55 throws; the [catch] block
    then builds the result key from [storedStateData.providerOptions], which
    is [undefined], and the [TypeError] leaves the function: the promise
    rejects, nothing is shown or sent, and the entry stays in storage. *)
Theorem missing_options_reject_the_promise :
  let w := popup "?code=abc&state=s1" (still 1700000000000) in
  let r := run_ok w (storage_s1 pending_no_options) in
  JSON_parse pending_no_options
  = Some (Some (StoredState.mk (Some 1700000300000) None (Some "sess1") None))
  /\ fst r
     = inl (ErrorObject "TypeError"
              "Cannot read properties of undefined (reading 'storageKeyPrefix')")
  /\ effects (snd r) = []
  /\ localStorage (snd r) = storage_s1 pending_no_options.
Proof. cbv zeta. repeat split; by_computation. Qed.

(** A truncated entry that still spells out a session id. *)
Lemma unparseable_entry_is_dropped_unpublished_witness :
  let w := window "?code=abc&state=s1" (still 1700000000000) in
  let text := json "{'expiry':1700000300000,'authSessionId':'sess1'" in
  let storage := storage_s1 text in
  Js.truthy (error w) = false
  /\ Js.truthy (code w) = true
  /\ stateKey w = Some "mcp:auth:state_s1"
  /\ storage !! "mcp:auth:state_s1" = Some text
  /\ Js.truthy_string text = true
  /\ JSON_parse text = None
  /\ (let r := run JSON_parse auth_ok getKey w storage in
      fst r = inr (CompletedFailure Reason.unparseable_state)
      /\ storedStateData (snd r) = None
      /\ published (effects (snd r)) = []
      /\ exchanges (effects (snd r)) = []
      /\ localStorage (snd r) = delete "mcp:auth:state_s1" storage).
Proof.
  intros w text storage.
  split; [by_computation|]. split; [by_computation|].
  split; [by_computation|]. split; [by_computation|].
  split; [by_computation|]. split; [by_computation|].
  apply (unparseable_entry_is_dropped_unpublished JSON_parse auth_ok getKey w
           storage "mcp:auth:state_s1" text);
    by_computation.
Defined.

(** ** Further scenarios on the reference platform *)

(** The success scenario: it ended in success, so the exchange answered
    [AUTHORIZED]. *)
Lemma success_needs_authorized_exchange_witness :
  let w := popup "?code=abc&state=s1" (still 1700000000000) in
  let storage := storage_s1 pending_s1 in
  fst (run JSON_parse auth_ok getKey w storage) = inr CompletedSuccess
  /\ exists key st po storage',
       finds JSON_parse w storage key st
       /\ expired (StoredState.expiry st) (clock w 0) = false
       /\ StoredState.providerOptions st = Some po
       /\ auth_ok
            (new_BrowserOAuthClientProvider (ProviderOptions.serverUrl po) po)
            (ProviderOptions.serverUrl po) (Js.template (code w)) storage
          = (inr "AUTHORIZED", storage')
       /\ localStorage (snd (run JSON_parse auth_ok getKey w storage)) !! key
          = None.
Proof.
  intros w storage.
  assert (Hsuccess :
            fst (run JSON_parse auth_ok getKey w storage)
            = inr CompletedSuccess) by by_computation.
  split; [exact Hsuccess|].
  exact (success_needs_authorized_exchange JSON_parse auth_ok getKey w
           storage Hsuccess).
Defined.

(** The tokens the exchange saved are not the handler's to touch: they
    are there at the end of the success scenario. *)
Lemma handler_touches_only_its_keys_witness :
  let w := popup "?code=abc&state=s1" (still 1700000000000) in
  let storage := storage_s1 pending_s1 in
  let k := getKey provider_s1 "tokens" in
  let r := run JSON_parse auth_ok getKey w storage in
  stateKey w <> Some k
  /\ (forall text, ~ In (k, text) (published (effects (snd r))))
  /\ (forall p, provider (snd r) = Some p ->
                k <> getKey p "code_verifier"
                /\ k <> getKey p "last_auth_url")
  /\ localStorage (snd r) !! k
     = exchanged_storage auth_ok storage (snd r) !! k.
Proof.
  intros w storage k r.
  assert (Hstate : stateKey w <> Some k) by (vm_compute; discriminate).
  assert (Hresult :
            forall text, ~ In (k, text) (published (effects (snd r)))).
  { intros text. vm_compute. intros [H|[]]. discriminate H. }
  assert (Hprovider :
            forall p, provider (snd r) = Some p ->
                      k <> getKey p "code_verifier"
                      /\ k <> getKey p "last_auth_url").
  { intros p. vm_compute. intros [= <-]. split; discriminate. }
  split; [exact Hstate|split; [exact Hresult|split; [exact Hprovider|]]].
  exact (handler_touches_only_its_keys JSON_parse auth_ok getKey w storage k
           Hstate Hresult Hprovider).
Defined.

(** A redirect for a state that was never stored, or was consumed
    already. *)
Lemma unknown_state_leaves_storage_alone_witness :
  let w := popup "?code=abc&state=s2" (still 1700000000000) in
  let storage := storage_s1 pending_s1 in
  let key := "mcp:auth:state_s2" in
  let reason := Reason.unknown_state (state w) in
  let r := run JSON_parse auth_ok getKey w storage in
  Js.truthy (error w) = false /\ Js.truthy (code w) = true
  /\ stateKey w = Some key /\ Js.truthy (storage !! key) = false
  /\ fst r = inr (CompletedFailure reason)
  /\ effects (snd r)
     = (messages w false (Some reason) ++ shown w reason
        ++ [RemoveItem key])%list
  /\ localStorage (snd r) = delete key storage
  /\ (storage !! key = None -> localStorage (snd r) = storage).
Proof.
  intros w storage key reason r.
  split; [by_computation|]. split; [by_computation|].
  split; [by_computation|]. split; [by_computation|].
  apply (unknown_state_leaves_storage_alone JSON_parse auth_ok getKey w
           storage key);
    by_computation.
Defined.

(** An entry that holds an expiry and nothing else. *)
Lemma missing_options_stop_before_exchange_witness :
  let w := popup "?code=abc&state=s1" (still 1700000000000) in
  let text := json "{'expiry':1700000300000}" in
  let storage := storage_s1 text in
  let key := "mcp:auth:state_s1" in
  let st := StoredState.mk (Some 1700000300000) None None None in
  let r := run JSON_parse auth_ok getKey w storage in
  finds JSON_parse w storage key st
  /\ expired (StoredState.expiry st) (clock w 0) = false
  /\ StoredState.providerOptions st = None
  /\ Js.truthy (StoredState.authSessionId st) = false
  /\ fst r = inr (CompletedFailure Reason.missing_options)
  /\ exchanges (effects (snd r)) = []
  /\ published (effects (snd r)) = []
  /\ provider (snd r) = None
  /\ localStorage (snd r) = delete key storage.
Proof.
  intros w text storage key st r.
  assert (Hfinds : finds JSON_parse w storage key st)
    by finds_by_computation text.
  split; [exact Hfinds|]. split; [by_computation|].
  split; [reflexivity|]. split; [reflexivity|].
  apply (missing_options_stop_before_exchange JSON_parse auth_ok getKey w
           storage key st Hfinds);
    by_computation.
Defined.

(** An entry that holds the JSON document [null]. *)
Lemma null_entry_is_survived_witness :
  let w := popup "?code=abc&state=s1" (still 1700000000000) in
  let storage := storage_s1 "null" in
  let key := "mcp:auth:state_s1" in
  let r := run JSON_parse auth_ok getKey w storage in
  Js.truthy (error w) = false /\ Js.truthy (code w) = true
  /\ stateKey w = Some key /\ storage !! key = Some "null"
  /\ Js.truthy_string "null" = true /\ JSON_parse "null" = Some None
  /\ (exists reason, fst r = inr (CompletedFailure reason))
  /\ published (effects (snd r)) = []
  /\ exchanges (effects (snd r)) = []
  /\ localStorage (snd r) = delete key storage.
Proof.
  intros w storage key r.
  split; [by_computation|]. split; [by_computation|].
  split; [by_computation|]. split; [by_computation|].
  split; [by_computation|]. split; [by_computation|].
  apply (null_entry_is_survived JSON_parse auth_ok getKey w storage key
           "null");
    by_computation.
Defined.

(** The pending entry of the scenarios, one millisecond too late. *)
Lemma expired_entry_with_session_is_published_witness :
  let w := popup "?code=abc&state=s1" (still 1700000300001) in
  let storage := storage_s1 pending_s1 in
  let key := "mcp:auth:state_s1" in
  let n := expiry_reads (StoredState.expiry state_s1) in
  let text :=
    result_text false (Some Reason.expired_state) (clock w n)
      (clock w (S n)) in
  let r := run JSON_parse auth_ok getKey w storage in
  finds JSON_parse w storage key state_s1
  /\ expired (StoredState.expiry state_s1) (clock w 0) = true
  /\ StoredState.providerOptions state_s1 = Some options_s1
  /\ StoredState.authSessionId state_s1 = Some "sess1"
  /\ Js.truthy_string "sess1" = true
  /\ fst r = inr (CompletedFailure Reason.expired_state)
  /\ exchanges (effects (snd r)) = []
  /\ effects (snd r)
     = ([RemoveItem key; SetItem (result_key options_s1 "sess1") text]
        ++ messages w false (Some Reason.expired_state)
        ++ shown w Reason.expired_state ++ [RemoveItem key])%list
  /\ localStorage (snd r)
     = delete key (<[result_key options_s1 "sess1" := text]> storage)
  /\ (StoredState.expiry state_s1 = None
      \/ StoredState.expiry state_s1 = Some 0 -> n = 0%nat).
Proof.
  intros w storage key n text r.
  assert (Hfinds : finds JSON_parse w storage key state_s1)
    by finds_by_computation pending_s1.
  split; [exact Hfinds|]. split; [by_computation|].
  split; [reflexivity|]. split; [reflexivity|]. split; [reflexivity|].
  apply (expired_entry_with_session_is_published JSON_parse auth_ok getKey
           w storage key state_s1 options_s1 "sess1" Hfinds);
    by_computation.
Defined.

(** The success scenario, step by step. *)
Lemma authorized_flow_in_order_witness :
  let w := popup "?code=abc&state=s1" drifting in
  let storage := storage_s1 pending_s1 in
  let key := "mcp:auth:state_s1" in
  let storage' :=
    <[getKey provider_s1 "tokens" := "{}"]>
      (delete (getKey provider_s1 "code_verifier") storage) in
  let text := result_text true None (clock w 1) (clock w 2) in
  let r := run JSON_parse auth_ok getKey w storage in
  finds JSON_parse w storage key state_s1
  /\ expired (StoredState.expiry state_s1) (clock w 0) = false
  /\ StoredState.providerOptions state_s1 = Some options_s1
  /\ StoredState.authSessionId state_s1 = Some "sess1"
  /\ Js.truthy_string "sess1" = true
  /\ auth_ok provider_s1 (ProviderOptions.serverUrl options_s1)
       (Js.template (code w)) storage
     = (inr "AUTHORIZED", storage')
  /\ effects (snd r)
     = ([Exchange (ProviderOptions.serverUrl options_s1)
           (Js.template (code w));
         SetItem (result_key options_s1 "sess1") text]
        ++ messages w true None ++ [CloseAfter 100; RemoveItem key])%list
  /\ localStorage (snd r)
     = delete key (<[result_key options_s1 "sess1" := text]> storage')
  /\ clockReads (snd r) = 3%nat.
Proof.
  intros w storage key storage' text r.
  assert (Hfinds : finds JSON_parse w storage key state_s1)
    by finds_by_computation pending_s1.
  split; [exact Hfinds|]. split; [by_computation|].
  split; [reflexivity|]. split; [reflexivity|]. split; [reflexivity|].
  split; [reflexivity|].
  apply (authorized_flow_in_order JSON_parse auth_ok getKey w storage key
           state_s1 options_s1 "sess1" storage' Hfinds);
    by_computation.
Defined.

(** Two redirects under the same storage key carry the same state. *)
Lemma state_key_determines_state_witness :
  let w1 := popup "?code=abc&state=s1" (still 1700000000000) in
  let w2 := window "?error=access_denied&state=s1" drifting in
  stateKey w1 = Some "mcp:auth:state_s1"
  /\ stateKey w2 = Some "mcp:auth:state_s1"
  /\ state w1 = state w2.
Proof.
  intros w1 w2.
  split; [by_computation|]. split; [by_computation|].
  apply (state_key_determines_state w1 w2 "mcp:auth:state_s1");
    by_computation.
Defined.
